(** * CoinLedger (Crypto-Price-Tracker): search, suggestion navigation and
      retrieval policies of [src/App.jsx]

    The component [App] keeps its state in React hooks.  The development
    embeds the pure parts (the two memoised lists) as functions, the event
    handlers as a transition function on the record of the hooks they write,
    and the two asynchronous retrieval functions as functions of the answer
    of the network, in a small exception monad for [throw]/[catch].

    A string is held as the bytes of its UTF-8 form ([String.string]): for
    well-formed text one string occurs in another as code units exactly
    when it does as bytes, and it is empty exactly when its bytes are;
    ASCII text has one byte per character.  [String.prototype.toLowerCase]
    belongs to the engine: it applies the case mapping of Unicode, which is
    not letter by letter (a capital sigma becomes one of two small letters
    according to its neighbours).  The search is therefore stated for every
    such function ([CaseMapping]); the letter-by-letter mapping of [A-Z] is
    what it does on ASCII text. *)

From Stdlib Require Import List String Ascii Bool Arith ZArith QArith Qround Lia.
From Stdlib Require Import DecimalString.
Import ListNotations.

Local Open Scope list_scope.
Local Open Scope string_scope.

(* ================================================================== *)
(** * Strings as JavaScript uses them *)
(* ================================================================== *)

Module JsString.

(** [!s] for a string [s] is true exactly for the empty string. *)
Definition truthy (s : string) : bool :=
  match s with
  | EmptyString => false
  | String _ _ => true
  end.

Definition is_upper (c : ascii) : bool :=
  (65 <=? nat_of_ascii c)%nat && (nat_of_ascii c <=? 90)%nat.

Definition lower_char (c : ascii) : ascii :=
  if is_upper c then ascii_of_nat (nat_of_ascii c + 32) else c.

(** [s.toLowerCase()], as the engine provides it. *)
Class CaseMapping : Type := { toLowerCase : string -> string }.


(** [s.startsWith(t)] *)
Fixpoint startsWith (s t : string) {struct t} : bool :=
  match t, s with
  | EmptyString, _ => true
  | String _ _, EmptyString => false
  | String b t', String a s' => Ascii.eqb a b && startsWith s' t'
  end.

(** [s.includes(t)]: [t] occurs in [s] at some position. *)
Fixpoint includes (s t : string) : bool :=
  if startsWith s t then true
  else match s with
       | EmptyString => false
       | String _ s' => includes s' t
       end.

(** ** Case-insensitive containment, as the specification words it

    Two characters are the same letter when they are equal or differ only
    by case; [ci_equal] lifts this to strings of equal length and
    [ci_contains s q] says that some substring of [s] is [q] up to
    case. *)




(** ** A case mapping to run examples with

    [sample_toLowerCase] is [toLowerCase] on texts made of ASCII letters,
    digits and spaces, of the letters U+00C0 to U+00FF of Latin-1 (two
    bytes each: C3 80..C3 BF, the capitals C3 80..C3 9E but C3 97 going to
    C3 A0..C3 BE) and of the 24 basic Greek letters (capitals U+0391 to
    U+03A9, small U+03B1 to U+03C9, two bytes each: CE 91..CE A9, CE B1..CE
    BF, CF 80..CF 89).  A capital sigma (CE A3) becomes the final small
    sigma (CF 82) when a cased letter precedes it and none follows, and
    the small sigma (CF 83) otherwise. *)

Fixpoint bytes (codes : list nat) : string :=
  match codes with
  | [] => EmptyString
  | n :: codes' => String (ascii_of_nat n) (bytes codes')
  end.

Definition is_lower (c : ascii) : bool :=
  (97 <=? nat_of_ascii c)%nat && (nat_of_ascii c <=? 122)%nat.

(** The text starts with a cased letter. *)
Definition starts_cased (s : string) : bool :=
  match s with
  | EmptyString => false
  | String c rest =>
      is_upper c || is_lower c ||
      match rest with
      | EmptyString => false
      | String d _ =>
          let n := nat_of_ascii d in
          ((nat_of_ascii c =? 206) &&
           (((145 <=? n) && (n <=? 169) && negb (n =? 162))
            || ((177 <=? n) && (n <=? 191))))%nat
          || ((nat_of_ascii c =? 207) && (128 <=? n) && (n <=? 137))%nat
          || ((nat_of_ascii c =? 195) && (128 <=? n) && (n <=? 191)
              && negb (n =? 151) && negb (n =? 183))%nat
      end
  end.

Fixpoint sample_lower (after_cased : bool) (s : string) : string :=
  match s with
  | EmptyString => EmptyString
  | String c rest =>
      if is_upper c then String (lower_char c) (sample_lower true rest)
      else if is_lower c then String c (sample_lower true rest)
      else
        match rest with
        | EmptyString => String c EmptyString
        | String d rest' =>
            let n := nat_of_ascii d in
            if (nat_of_ascii c =? 206)%nat then
              if (n =? 163)%nat then
                String (ascii_of_nat 207)
                  (String (ascii_of_nat
                             (if after_cased && negb (starts_cased rest')
                              then 130 else 131))
                     (sample_lower true rest'))
              else if ((145 <=? n) && (n <=? 159))%nat then
                String c (String (ascii_of_nat (n + 32)) (sample_lower true rest'))
              else if ((160 <=? n) && (n <=? 169) && negb (n =? 162))%nat then
                String (ascii_of_nat 207)
                  (String (ascii_of_nat (n - 32)) (sample_lower true rest'))
              else if ((177 <=? n) && (n <=? 191))%nat then
                String c (String d (sample_lower true rest'))
              else String c (sample_lower false rest)
            else if ((nat_of_ascii c =? 207) && (128 <=? n) && (n <=? 137))%nat then
              String c (String d (sample_lower true rest'))
            else if (nat_of_ascii c =? 195)%nat then
              if ((128 <=? n) && (n <=? 158) && negb (n =? 151))%nat then
                String c (String (ascii_of_nat (n + 32)) (sample_lower true rest'))
              else if ((159 <=? n) && (n <=? 191) && negb (n =? 183))%nat then
                String c (String d (sample_lower true rest'))
              else String c (String d (sample_lower false rest'))
            else String c (sample_lower false rest)
        end
  end.

Definition sample_toLowerCase (s : string) : string := sample_lower false s.

#[global] Instance sample_case : CaseMapping :=
  {| toLowerCase := sample_toLowerCase |}.

End JsString.

Import JsString.

(* ================================================================== *)
(** * Assets and the two derived lists *)
(* ================================================================== *)

(** One record of the market-data answer.  The search reads [name] and
    [symbol], the rendering keys on [id]; the numeric fields (price,
    change, capitalisation, volume, rank) are only displayed and are left
    out. *)
Record Asset : Type := mkAsset {
  id : string;
  name : string;
  symbol : string
}.

Section Search.

Context {CM : CaseMapping}.

(** The predicate passed to [cryptos.filter] in both memoised lists. *)
Definition matches (lowerCaseSearchTerm : string) (crypto : Asset) : bool :=
  includes (toLowerCase (name crypto)) lowerCaseSearchTerm
  || includes (toLowerCase (symbol crypto)) lowerCaseSearchTerm.

(** [filteredCryptos], App.jsx lines 210-219. *)
Definition filteredCryptos (cryptos : list Asset) (searchTerm : string)
  : list Asset :=
  if negb (truthy searchTerm) then cryptos
  else
    let lowerCaseSearchTerm := toLowerCase searchTerm in
    filter (matches lowerCaseSearchTerm) cryptos.

(** [searchSuggestions], App.jsx lines 113-123; [slice(0, 8)] is
    [firstn 8]. *)
Definition searchSuggestions (cryptos : list Asset) (searchTerm : string)
  : list Asset :=
  if negb (truthy searchTerm) || (String.length searchTerm <? 1)%nat then []
  else
    let lowerCaseSearchTerm := toLowerCase searchTerm in
    let suggestions := firstn 8 (filter (matches lowerCaseSearchTerm) cryptos) in
    suggestions.



End Search.

(** ** What "exactly the matching assets, in order" means

    [Selected P l l'] holds when [l'] is [l] with the elements that satisfy
    [P] kept, all others dropped, and nothing moved. *)
Inductive Selected {A : Type} (P : A -> Prop) : list A -> list A -> Prop :=
| Selected_nil : Selected P [] []
| Selected_keep a l l' :
    P a -> Selected P l l' -> Selected P (a :: l) (a :: l')
| Selected_drop a l l' :
    ~ P a -> Selected P l l' -> Selected P (a :: l) l'.


(** Sample data: the scenario of the specification. *)
Definition bitcoin : Asset := mkAsset "bitcoin" "Bitcoin" "btc".
Definition bitcoin_cash : Asset := mkAsset "bitcoin-cash" "Bitcoin Cash" "bch".
Definition ethereum : Asset := mkAsset "ethereum" "Ethereum" "eth".


(** An asset named with the Greek capitals alpha and sigma
    (U+0391 U+03A3), and the query that is the capital sigma alone. *)
Definition capital_alpha_sigma : string := bytes [206; 145; 206; 163]%nat.
Definition capital_sigma : string := bytes [206; 163]%nat.

(** A name in capitals with an accent, "ECLAIR" with U+00C9 for the first
    letter, and the query that is the small accented letter (U+00E9). *)
Definition accented_eclair : Asset :=
  mkAsset "eclair" (bytes [195; 137; 67; 76; 65; 73; 82]%nat) "ecl".
Definition small_e_acute : string := bytes [195; 169]%nat.

(* ================================================================== *)
(** * The suggestion navigator *)
(* ================================================================== *)

(** The hooks that the search handlers read and write (App.jsx lines 5, 6,
    21 and 22). *)
Record State : Type := mkState {
  cryptos : list Asset;
  searchTerm : string;
  showSuggestions : bool;
  selectedSuggestionIndex : Z
}.

Definition setCryptos (data : list Asset) (s : State) : State :=
  mkState data (searchTerm s) (showSuggestions s) (selectedSuggestionIndex s).

Definition setSearchTerm (value : string) (s : State) : State :=
  mkState (cryptos s) value (showSuggestions s) (selectedSuggestionIndex s).

Definition setShowSuggestions (b : bool) (s : State) : State :=
  mkState (cryptos s) (searchTerm s) b (selectedSuggestionIndex s).

Definition setSelectedSuggestionIndex (i : Z) (s : State) : State :=
  mkState (cryptos s) (searchTerm s) (showSuggestions s) i.

(** The state after mounting: [useState([])], [useState('')],
    [useState(false)], [useState(-1)]. *)
Definition initial : State := mkState [] EmptyString false (-1).

Section Navigation.

Context {CM : CaseMapping}.

(** The memoised suggestion list of a state. *)
Definition suggestions (s : State) : list Asset :=
  searchSuggestions (cryptos s) (searchTerm s).

(** [arr[i]] for an integer [i]: [undefined] outside the array. *)
Definition at_index {A : Type} (arr : list A) (i : Z) : option A :=
  if (i <? 0)%Z then None else nth_error arr (Z.to_nat i).

(** The suggestion panel as rendered (lines 428 and 438): its items exist
    only while [showSuggestions] holds and the list is not empty. *)
Definition panel (s : State) : list Asset :=
  if showSuggestions s && (0 <? List.length (suggestions s))%nat
  then suggestions s else [].

(** [handleSearchChange], lines 140-145. *)
Definition handleSearchChange (value : string) (s : State) : State :=
  setSelectedSuggestionIndex (-1)
    (setShowSuggestions (0 <? String.length value)%nat
       (setSearchTerm value s)).

(** [selectSuggestion], lines 177-182 (the final [blur()] only moves the
    input focus). *)
Definition selectSuggestion (crypto : Asset) (s : State) : State :=
  setSelectedSuggestionIndex (-1)
    (setShowSuggestions false
       (setSearchTerm (name crypto) s)).

(** The value of [e.key], as far as the [switch] tells keys apart. *)
Inductive Key : Type := ArrowDown | ArrowUp | Enter | Escape | OtherKey.

(** [handleKeyDown], lines 148-174. *)
Definition handleKeyDown (key : Key) (s : State) : State :=
  if negb (showSuggestions s) then s
  else
    match key with
    | ArrowDown =>
        let prev := selectedSuggestionIndex s in
        setSelectedSuggestionIndex
          (if (prev <? Z.of_nat (List.length (suggestions s)) - 1)%Z
           then (prev + 1)%Z else prev) s
    | ArrowUp =>
        let prev := selectedSuggestionIndex s in
        setSelectedSuggestionIndex
          (if (prev >? 0)%Z then (prev - 1)%Z else (-1)%Z) s
    | Enter =>
        if (selectedSuggestionIndex s >=? 0)%Z then
          match at_index (suggestions s) (selectedSuggestionIndex s) with
          | Some crypto => selectSuggestion crypto s
          | None => s
          end
        else s
    | Escape =>
        setSelectedSuggestionIndex (-1) (setShowSuggestions false s)
    | OtherKey => s
    end.

(** [handleClickOutside], lines 186-191: [suggestionsRef.current] is set
    only while the panel is rendered, and the event is a press outside both
    the panel and the input. *)
Definition handleClickOutside (s : State) : State :=
  match panel s with
  | [] => s
  | _ :: _ => setSelectedSuggestionIndex (-1) (setShowSuggestions false s)
  end.

(** What can happen to the search state. *)
Inductive Event : Type :=
| Change (value : string)        (* typing: [onChange] of the input *)
| KeyDown (key : Key)            (* [onKeyDown] of the input *)
| Focus                          (* [onFocus] of the input, line 274 *)
| MouseDownOutside               (* press outside the search surface *)
| MouseEnter (index : nat)       (* pointer enters item [index], line 444 *)
| Click (index : nat)            (* click on item [index], line 443 *)
| Refresh (data : list Asset).   (* a fetch succeeded: [setCryptos(data)] *)

(** The names the specification gives to the navigation events. *)
Definition queryChanged (value : string) : Event := Change value.
Definition moveDown : Event := KeyDown ArrowDown.
Definition moveUp : Event := KeyDown ArrowUp.
Definition confirm : Event := KeyDown Enter.
Definition cancel : Event := KeyDown Escape.
Definition hover (i : nat) : Event := MouseEnter i.

(** One event.  [MouseEnter] and [Click] are handlers of the rendered
    items: for an index without an item there is nothing to fire on. *)
Definition step (s : State) (e : Event) : State :=
  match e with
  | Change value => handleSearchChange value s
  | KeyDown key => handleKeyDown key s
  | Focus =>
      if (0 <? String.length (searchTerm s))%nat
      then setShowSuggestions true s else s
  | MouseDownOutside => handleClickOutside s
  | MouseEnter index =>
      match nth_error (panel s) index with
      | Some _ => setSelectedSuggestionIndex (Z.of_nat index) s
      | None => s
      end
  | Click index =>
      match nth_error (panel s) index with
      | Some crypto => selectSuggestion crypto s
      | None => s
      end
  | Refresh data => setCryptos data s
  end.

Definition run (s : State) (events : list Event) : State :=
  fold_left step events s.

Inductive reachable : State -> Prop :=
| reachable_initial : reachable initial
| reachable_step s e : reachable s -> reachable (step s e).

Definition is_refresh (e : Event) : bool :=
  match e with
  | Refresh _ => true
  | _ => false
  end.

(** The guarantee of the specification: the cursor is [-1] or an index into
    the current suggestion list. *)
Definition cursor_valid (s : State) : Prop :=
  selectedSuggestionIndex s = (-1)%Z \/
  (0 <= selectedSuggestionIndex s < Z.of_nat (List.length (suggestions s)))%Z.

(** Two assets match "bit"; after two [moveDown] the cursor is on the second;
    the next refresh returns only one of them. *)
Definition stale_cursor_trace : list Event :=
  [ Refresh [bitcoin; bitcoin_cash]; queryChanged "bit"; moveDown; moveDown;
    Refresh [bitcoin] ].

(** Every handler that hides the panel resets the cursor in the same
    breath, and the cursor only moves while the panel is shown: a hidden
    panel has an idle cursor. *)
Definition hidden_idle (s : State) : Prop :=
  showSuggestions s = false -> selectedSuggestionIndex s = (-1)%Z.

End Navigation.

(* ================================================================== *)
(** * JavaScript values, exceptions and the network *)
(* ================================================================== *)

Set Warnings "-register-all".

(** What [JSON.parse] returns.  A number carries the value of the double it
    parses to; members of an object are kept in the order of the text. *)
Inductive json : Type :=
| JNull
| JBool (b : bool)
| JNum (q : Q)
| JStr (s : string)
| JArr (items : list json)
| JObj (members : list (string * json)).

(** A JavaScript value met by the code: [undefined] or a parsed value. *)
Definition value : Type := option json.
Definition undefined : value := None.

(** The outcome of an evaluation: a value, or a thrown [Error] of which the
    handlers read only [err.message]. *)
Inductive completion (A : Type) : Type :=
| Normal (a : A)
| Throw (message : string).
Arguments Normal {A} a.
Arguments Throw {A} message.

Definition cbind {A B : Type} (c : completion A) (k : A -> completion B)
  : completion B :=
  match c with
  | Normal a => k a
  | Throw m => Throw m
  end.

(** [promise.catch(handler)] *)
Definition ccatch {A : Type} (c : completion A) (handler : string -> completion A)
  : completion A :=
  match c with
  | Normal a => Normal a
  | Throw m => handler m
  end.

Declare Scope completion_scope.
Delimit Scope completion_scope with completion.
Notation "x <- c ;; k" := (cbind c (fun x => k))
  (at level 61, c at next level, right associativity) : completion_scope.

(** What belongs to the JavaScript engine rather than to the program: the
    text of the [TypeError] for a property read on [null] or [undefined],
    and the conversions of numbers, arrays and objects to strings and to
    numbers.  The conversions of arrays and objects run [toString] and
    [valueOf] and can throw. *)
Record Engine : Type := mkEngine {
  nullish_read_message : value -> string -> string;
  number_to_string : Q -> string;
  object_to_string : json -> completion string;
  string_gt_zero : string -> bool;
  object_gt_zero : json -> completion bool
}.

(** A property key: a name ([x.candidates]) or an index ([x[0]]). *)
Inductive PropertyKey : Type :=
| Named (key : string)
| Index (i : nat).

Definition decimal (n : nat) : string := NilZero.string_of_uint (Nat.to_uint n).

Definition key_text (k : PropertyKey) : string :=
  match k with
  | Named key => key
  | Index i => decimal i
  end.

(** The member of a parsed object under a key; of two members with one key
    [JSON.parse] keeps the later. *)
Definition member (key : string) (members : list (string * json)) : value :=
  fold_left (fun found kv => if String.eqb (fst kv) key then Some (snd kv) else found)
            members undefined.

(** [v[k]] and [v.k].  Reading a property of [null] or [undefined] throws;
    arrays and strings have [length] and their indices; numbers and
    booleans have none of the properties the program reads.  (Inherited
    members such as [toString] are outside the model: the program reads
    [candidates], [content], [parts], [text], [length], [error], [message]
    and index 0.) *)
Definition get (E : Engine) (v : value) (k : PropertyKey) : completion value :=
  match v with
  | None | Some JNull => Throw (nullish_read_message E v (key_text k))
  | Some (JObj members) => Normal (member (key_text k) members)
  | Some (JArr items) =>
      match k with
      | Index i => Normal (nth_error items i)
      | Named key =>
          if String.eqb key "length"
          then Normal (Some (JNum (inject_Z (Z.of_nat (List.length items)))))
          else Normal undefined
      end
  | Some (JStr s) =>
      match k with
      | Index i =>
          Normal (match String.get i s with
                  | Some c => Some (JStr (String c EmptyString))
                  | None => undefined
                  end)
      | Named key =>
          if String.eqb key "length"
          then Normal (Some (JNum (inject_Z (Z.of_nat (String.length s)))))
          else Normal undefined
      end
  | Some (JBool _) | Some (JNum _) => Normal undefined
  end.

(** Truthiness, as [&&], [||], [!] and [if] use it. *)
Definition truthy_value (v : value) : bool :=
  match v with
  | None | Some JNull => false
  | Some (JBool b) => b
  | Some (JNum q) => negb (Qeq_bool q 0)
  | Some (JStr s) => truthy s
  | Some (JArr _) | Some (JObj _) => true
  end.

(** [v > 0] *)
Definition gt_zero (E : Engine) (v : value) : completion bool :=
  match v with
  | None | Some JNull => Normal false
  | Some (JBool b) => Normal b
  | Some (JNum q) => Normal (negb (Qle_bool q 0))
  | Some (JStr s) => Normal (string_gt_zero E s)
  | Some (JArr items) => object_gt_zero E (JArr items)
  | Some (JObj members) => object_gt_zero E (JObj members)
  end.

(** The conversion of a template literal, [`${v}`]. *)
Definition to_string (E : Engine) (v : value) : completion string :=
  match v with
  | None => Normal "undefined"
  | Some JNull => Normal "null"
  | Some (JBool true) => Normal "true"
  | Some (JBool false) => Normal "false"
  | Some (JNum q) => Normal (number_to_string E q)
  | Some (JStr s) => Normal s
  | Some (JArr items) => object_to_string E (JArr items)
  | Some (JObj members) => object_to_string E (JObj members)
  end.

(** ** The network *)

Record Request : Type := mkRequest {
  url : string;
  method : string;
  body : option json          (* the payload given to [JSON.stringify] *)
}.

(** A [Response]: [json_body] is the outcome of [response.json()], which
    rejects with the parser's message when the body is not JSON. *)
Record Response : Type := mkResponse {
  status : nat;
  statusText : string;
  json_body : completion json
}.

(** [response.ok]: the status is in the range 200-299. *)
Definition ok (response : Response) : bool :=
  (200 <=? status response)%nat && (status response <=? 299)%nat.

(** [fetch] resolves with a response or rejects (no connection, CORS). *)
Inductive FetchResult : Type :=
| Rejected (message : string)
| Resolved (response : Response).

Definition Network : Type := Request -> FetchResult.

(* ================================================================== *)
(** * The hooks of the two retrieval functions *)
(* ================================================================== *)

Module Insight.
(** The object given to [setLlmInsight]. *)
Record t : Type := mk { name : string; text : value }.
End Insight.

Module Retrieval.

(** The hooks written by [fetchCryptoData] and [getCryptoInsight], and
    the requests sent so far.  [cryptos] holds the parsed answer as it
    came ([setCryptos(data)]). *)
Record Store : Type := mkStore {
  cryptos : json;
  loading : bool;
  error : option string;
  llmInsight : option Insight.t;
  isInsightLoading : bool;
  insightError : option string;
  sent : list Request
}.

(** After mounting (lines 5-19). *)
Definition initial : Store :=
  mkStore (JArr []) true None None false None [].

(** Computations that write hooks, send requests and may throw. *)
Definition M (A : Type) : Type := Store -> completion A * Store.

Definition ret {A : Type} (a : A) : M A := fun st => (Normal a, st).

Definition bind {A B : Type} (m : M A) (k : A -> M B) : M B :=
  fun st =>
    match m st with
    | (Normal a, st') => k a st'
    | (Throw message, st') => (Throw message, st')
    end.

Definition throw {A : Type} (message : string) : M A :=
  fun st => (Throw message, st).

Definition lift {A : Type} (c : completion A) : M A := fun st => (c, st).

(** [try { body } catch (err) { handler(err.message) } finally { final }] *)
Definition try_catch_finally (body : M unit) (handler : string -> M unit)
           (final : M unit) : M unit :=
  fun st =>
    let (outcome, st1) :=
      match body st with
      | (Normal u, st') => (Normal u, st')
      | (Throw message, st') => handler message st'
      end in
    match final st1 with
    | (Normal _, st2) => (outcome, st2)
    | (Throw message, st2) => (Throw message, st2)
    end.

Definition setCryptos (data : json) : M unit :=
  fun st => (Normal tt,
             mkStore data (loading st) (error st) (llmInsight st)
                     (isInsightLoading st) (insightError st) (sent st)).

Definition setLoading (b : bool) : M unit :=
  fun st => (Normal tt,
             mkStore (cryptos st) b (error st) (llmInsight st)
                     (isInsightLoading st) (insightError st) (sent st)).

Definition setError (e : option string) : M unit :=
  fun st => (Normal tt,
             mkStore (cryptos st) (loading st) e (llmInsight st)
                     (isInsightLoading st) (insightError st) (sent st)).

Definition setLlmInsight (i : option Insight.t) : M unit :=
  fun st => (Normal tt,
             mkStore (cryptos st) (loading st) (error st) i
                     (isInsightLoading st) (insightError st) (sent st)).

Definition setIsInsightLoading (b : bool) : M unit :=
  fun st => (Normal tt,
             mkStore (cryptos st) (loading st) (error st) (llmInsight st)
                     b (insightError st) (sent st)).

Definition setInsightError (e : option string) : M unit :=
  fun st => (Normal tt,
             mkStore (cryptos st) (loading st) (error st) (llmInsight st)
                     (isInsightLoading st) e (sent st)).

(** [await fetch(...)]: the request goes out and the network answers. *)
Definition fetch (net : Network) (request : Request) : M Response :=
  fun st =>
    let st' := mkStore (cryptos st) (loading st) (error st) (llmInsight st)
                       (isInsightLoading st) (insightError st)
                       (sent st ++ [request])%list in
    match net request with
    | Resolved response => (Normal response, st')
    | Rejected message => (Throw message, st')
    end.

End Retrieval.

Declare Scope retrieval_scope.
Delimit Scope retrieval_scope with retrieval.
Notation "x <- m ;; k" := (Retrieval.bind m (fun x => k))
  (at level 61, m at next level, right associativity) : retrieval_scope.
Notation "m ;; k" := (Retrieval.bind m (fun _ => k))
  (at level 61, right associativity) : retrieval_scope.

(* ================================================================== *)
(** * The two retrieval functions *)
(* ================================================================== *)

Section RetrievalFunctions.

Variable E : Engine.
Variable net : Network.

Local Open Scope retrieval_scope.

(** [v.k1.k2...]: the reads happen from left to right and the first one
    on [null] or [undefined] throws. *)
Definition get_path (v : value) (keys : list PropertyKey) : completion value :=
  fold_left (fun c k => cbind c (fun x => get E x k)) keys (Normal v).

(** *** [fetchCryptoData], lines 27-58

    The function is [async].  [fetchCryptoData] below is a call on its own:
    what the call writes from its start to its end when no other call
    writes in between.  Its two parts, before and after the answer, are
    [fetchCryptoData_begins] and [fetchCryptoData_settles] further down,
    where calls that overlap are run. *)

Definition market_url (apiKey : string) : string :=
  let apiUrl :=
    "https://api.coingecko.com/api/v3/coins/markets?vs_currency=usd&order=market_cap_desc&per_page=100&page=1&sparkline=false&price_change_percentage=24h" in
  if truthy apiKey then apiUrl ++ "&x_cg_demo_api_key=" ++ apiKey else apiUrl.

(** [errorData.error || errorData.message || 'Unknown error'] *)
Definition error_detail (errorData : json) : completion value :=
  (e <- get E (Some errorData) (Named "error") ;;
   if truthy_value e then Normal e
   else
     m <- get E (Some errorData) (Named "message") ;;
     if truthy_value m then Normal m
     else Normal (Some (JStr "Unknown error")))%completion.

Definition http_error_message (response : Response) (detail : string) : string :=
  "HTTP error! Status: " ++ decimal (status response) ++ " - " ++ detail.

Definition load_failure (message : string) : string :=
  "Failed to load cryptocurrency data: " ++ message
    ++ ". Please check your API key or try again later.".

Definition fetchCryptoData (apiKey : string) : Retrieval.M unit :=
  Retrieval.setLoading true ;;
  Retrieval.setError None ;;
  Retrieval.try_catch_finally
    (response <- Retrieval.fetch net (mkRequest (market_url apiKey) "GET" None) ;;
     (if negb (ok response) then
        errorData <- Retrieval.lift
          (ccatch (json_body response)
                  (fun _ => Normal (JObj [("message", JStr (statusText response))]))) ;;
        detail <- Retrieval.lift (cbind (error_detail errorData) (to_string E)) ;;
        Retrieval.throw (http_error_message response detail)
      else Retrieval.ret tt) ;;
     data <- Retrieval.lift (json_body response) ;;
     Retrieval.setCryptos data)
    (fun message => Retrieval.setError (Some (load_failure message)))
    (Retrieval.setLoading false).

(** *** [getCryptoInsight], lines 61-110

    Likewise a call on its own; its parts are [getCryptoInsight_begins] and
    [getCryptoInsight_settles]. *)

Definition fallbackInsights (cryptoName : string) : list string :=
  [ cryptoName ++ " is a prominent cryptocurrency in the digital asset market. It continues to attract attention from investors and traders worldwide.";
    cryptoName ++ " represents a significant player in the blockchain ecosystem. Its performance often reflects broader market trends in the crypto space.";
    cryptoName ++ " has established itself as a key digital asset with growing adoption and market presence.";
    cryptoName ++ " continues to evolve in the competitive cryptocurrency landscape, offering unique value propositions to its community." ].

Definition double_quote : string := String (ascii_of_nat 34) EmptyString.

Definition insight_prompt (cryptoName : string) : string :=
  "Provide a brief, concise, and neutral insight or a " ++ double_quote
    ++ "what's new" ++ double_quote ++ " update about " ++ cryptoName
    ++ ". Focus on recent developments, key features, or its general market position. Keep it to 2-3 sentences.".

Definition insight_payload (cryptoName : string) : json :=
  let chatHistory :=
    [ JObj [("role", JStr "user");
            ("parts", JArr [JObj [("text", JStr (insight_prompt cryptoName))]])] ] in
  JObj [("contents", JArr chatHistory)].

Definition insight_request (geminiApiKey cryptoName : string) : Request :=
  mkRequest
    ("https://generativelanguage.googleapis.com/v1beta/models/gemini-2.0-flash:generateContent?key="
       ++ geminiApiKey)
    "POST" (Some (insight_payload cryptoName)).

(** The condition of lines 95-97, conjunct by conjunct. *)
Definition expected_structure (result : json) : completion bool :=
  let r := Some result in
  (candidates <- get_path r [Named "candidates"] ;;
   if negb (truthy_value candidates) then Normal false
   else
     n <- get_path r [Named "candidates"; Named "length"] ;;
     positive <- gt_zero E n ;;
     if negb positive then Normal false
     else
       content <- get_path r [Named "candidates"; Index 0; Named "content"] ;;
       if negb (truthy_value content) then Normal false
       else
         parts <- get_path r [Named "candidates"; Index 0; Named "content";
                              Named "parts"] ;;
         if negb (truthy_value parts) then Normal false
         else
           m <- get_path r [Named "candidates"; Index 0; Named "content";
                            Named "parts"; Named "length"] ;;
           gt_zero E m)%completion.

Definition generic_insight_failure : string :=
  "Could not generate insight. Please try again.".

(** [random] is the result of [Math.random()]: the product with the
    length 4 is exact in binary floating point, so the index is the floor
    of the exact product. *)
Definition getCryptoInsight (random : Q) (geminiApiKey cryptoName : string)
  : Retrieval.M unit :=
  Retrieval.setIsInsightLoading true ;;
  Retrieval.setInsightError None ;;
  Retrieval.setLlmInsight None ;;
  Retrieval.try_catch_finally
    (if negb (truthy geminiApiKey) then
       let randomInsight :=
         at_index (fallbackInsights cryptoName)
           (Qfloor (random *
                    inject_Z (Z.of_nat (List.length (fallbackInsights cryptoName))))) in
       Retrieval.setLlmInsight
         (Some (Insight.mk cryptoName (option_map JStr randomInsight)))
     else
       response <- Retrieval.fetch net (insight_request geminiApiKey cryptoName) ;;
       result <- Retrieval.lift (json_body response) ;;
       expected <- Retrieval.lift (expected_structure result) ;;
       if expected then
         text <- Retrieval.lift
           (get_path (Some result)
              [Named "candidates"; Index 0; Named "content"; Named "parts";
               Index 0; Named "text"]) ;;
         Retrieval.setLlmInsight (Some (Insight.mk cryptoName text))
       else
         Retrieval.setInsightError (Some generic_insight_failure))
    (fun message =>
       Retrieval.setInsightError (Some ("Failed to get insight: " ++ message ++ ".")))
    (Retrieval.setIsInsightLoading false).

End RetrievalFunctions.

(** ** Sample inputs *)

(** An engine for running examples: the message of V8 for a read on [null]
    or [undefined]; the conversions of numbers, arrays and objects, which
    no example reaches, answer with fixed values. *)
Definition sample_engine : Engine :=
  mkEngine
    (fun v key =>
       "Cannot read properties of "
         ++ match v with None => "undefined" | Some _ => "null" end
         ++ " (reading '" ++ key ++ "')")
    (fun _ => "0")
    (fun _ => Normal "[object Object]")
    (fun _ => false)
    (fun _ => Normal false).

Definition answering (response : Response) : Network := fun _ => Resolved response.

(** The rate-limit answer of the market-data service: status 429 and an
    object with neither [error] nor [message]. *)
Definition rate_limited : Response :=
  mkResponse 429 "Too Many Requests"
    (Normal (JObj [("status",
                    JObj [("error_code", JNum (inject_Z 429));
                          ("error_message", JStr "You've exceeded the Rate Limit.")])])).

(** A success status with a body that is not JSON. *)
Definition html_instead_of_json : Response :=
  mkResponse 200 "OK" (Throw "Unexpected token '<', is not valid JSON").

(** An error answer of the text service. *)
Definition key_rejected : Response :=
  mkResponse 400 "Bad Request"
    (Normal (JObj [("error",
                    JObj [("code", JNum (inject_Z 400));
                          ("message", JStr "API key not valid.");
                          ("status", JStr "INVALID_ARGUMENT")])])).

(** Answers without the expected structure on which a property read hits
    [null]. *)
Definition null_body : Response :=
  mkResponse 500 "Internal Server Error" (Normal JNull).

Definition null_candidate : Response :=
  mkResponse 200 "OK" (Normal (JObj [("candidates", JArr [JNull])])).

Definition generated (text : string) : Response :=
  mkResponse 200 "OK"
    (Normal (JObj [("candidates",
                    JArr [JObj [("content",
                                 JObj [("parts", JArr [JObj [("text", JStr text)]]);
                                       ("role", JStr "model")])]])])).

(** ** The stores the claims speak about *)

Definition market_request (apiKey : string) : Request :=
  mkRequest (market_url apiKey) "GET" None.

(** The store after a failed load with the given error message: the asset
    list is kept, the request is on record, [loading] is off again. *)
Definition failed_load (apiKey message : string) (st : Retrieval.Store)
  : Retrieval.Store :=
  Retrieval.mkStore (Retrieval.cryptos st) false (Some (load_failure message))
    (Retrieval.llmInsight st) (Retrieval.isInsightLoading st)
    (Retrieval.insightError st)
    (Retrieval.sent st ++ [market_request apiKey])%list.

(** The store after an insight request that sent nothing and displays
    [insight]. *)
Definition local_insight (insight : Insight.t) (st : Retrieval.Store)
  : Retrieval.Store :=
  Retrieval.mkStore (Retrieval.cryptos st) (Retrieval.loading st) (Retrieval.error st)
    (Some insight) false None (Retrieval.sent st).

(** The store after a remote insight request that ended in the error
    [message]. *)
Definition failed_insight (geminiApiKey cryptoName message : string)
           (st : Retrieval.Store) : Retrieval.Store :=
  Retrieval.mkStore (Retrieval.cryptos st) (Retrieval.loading st) (Retrieval.error st)
    None false (Some message)
    (Retrieval.sent st ++ [insight_request geminiApiKey cryptoName])%list.

(* ================================================================== *)
(** * What the retrieval hooks put on screen *)
(* ================================================================== *)

(** The store after a load that succeeded with [data]: the asset list is
    replaced wholesale and the previous error is gone. *)
Definition loaded (apiKey : string) (data : json) (st : Retrieval.Store)
  : Retrieval.Store :=
  Retrieval.mkStore data false None
    (Retrieval.llmInsight st) (Retrieval.isInsightLoading st)
    (Retrieval.insightError st)
    (Retrieval.sent st ++ [market_request apiKey])%list.

(** The store after a remote insight request that displays [insight]. *)
Definition remote_insight (geminiApiKey cryptoName : string) (insight : Insight.t)
           (st : Retrieval.Store) : Retrieval.Store :=
  Retrieval.mkStore (Retrieval.cryptos st) (Retrieval.loading st) (Retrieval.error st)
    (Some insight) false None
    (Retrieval.sent st ++ [insight_request geminiApiKey cryptoName])%list.

(** [x ? ... : ...] and [x && ...] on a hook that holds [null] or a
    string. *)
Definition truthy_message (m : option string) : bool :=
  match m with
  | Some text => truthy text
  | None => false
  end.

(** The insight modal (line 523) and the loading/error notice (line 555). *)
Definition insight_modal (st : Retrieval.Store) : bool :=
  match Retrieval.llmInsight st with
  | Some _ => true
  | None => false
  end.

Definition insight_notice (st : Retrieval.Store) : bool :=
  Retrieval.isInsightLoading st || truthy_message (Retrieval.insightError st).

(* ================================================================== *)
(** * Calls that overlap *)
(* ================================================================== *)

(** [fetchCryptoData] and [getCryptoInsight] are [async]: a call runs up to
    its first [await], and goes on when the answer is there.  The component
    starts calls while others are in flight (the effect on every change of
    the key, the interval, the buttons, every card), so writes of other
    calls can fall between the parts of one call.  Neither function reads a
    hook, and a call writes nothing between its first [await] and its
    last: it is two segments, the one that begins it and the one that
    settles it.  The functions [fetchCryptoData] and [getCryptoInsight]
    above are a call on its own, its two segments run back to back. *)

(** The request leaves. *)
Definition send (request : Request) : Retrieval.M unit :=
  fun st =>
    (Normal tt,
     Retrieval.mkStore (Retrieval.cryptos st) (Retrieval.loading st)
       (Retrieval.error st) (Retrieval.llmInsight st)
       (Retrieval.isInsightLoading st) (Retrieval.insightError st)
       (Retrieval.sent st ++ [request])%list).

(** [await fetch(...)] goes on with the answer. *)
Definition received (answer : FetchResult) : Retrieval.M Response :=
  match answer with
  | Resolved response => Retrieval.ret response
  | Rejected message => Retrieval.throw message
  end.

Section Segments.

Variable E : Engine.

Local Open Scope retrieval_scope.

(** [fetchCryptoData] up to [await fetch(apiUrl)], lines 28-40. *)
Definition fetchCryptoData_begins (apiKey : string) : Retrieval.M unit :=
  Retrieval.setLoading true ;;
  Retrieval.setError None ;;
  send (market_request apiKey).

(** [fetchCryptoData] from the answer on, lines 40-57. *)
Definition fetchCryptoData_settles (answer : FetchResult) : Retrieval.M unit :=
  Retrieval.try_catch_finally
    (response <- received answer ;;
     (if negb (ok response) then
        errorData <- Retrieval.lift
          (ccatch (json_body response)
                  (fun _ => Normal (JObj [("message", JStr (statusText response))]))) ;;
        detail <- Retrieval.lift (cbind (error_detail E errorData) (to_string E)) ;;
        Retrieval.throw (http_error_message response detail)
      else Retrieval.ret tt) ;;
     data <- Retrieval.lift (json_body response) ;;
     Retrieval.setCryptos data)
    (fun message => Retrieval.setError (Some (load_failure message)))
    (Retrieval.setLoading false).

(** [getCryptoInsight] up to [await fetch(...)], lines 62-91; without a key
    the call has no [await] and this is all of it. *)
Definition getCryptoInsight_begins (random : Q) (geminiApiKey cryptoName : string)
  : Retrieval.M unit :=
  Retrieval.setIsInsightLoading true ;;
  Retrieval.setInsightError None ;;
  Retrieval.setLlmInsight None ;;
  if negb (truthy geminiApiKey) then
    Retrieval.try_catch_finally
      (let randomInsight :=
         at_index (fallbackInsights cryptoName)
           (Qfloor (random *
                    inject_Z (Z.of_nat (List.length (fallbackInsights cryptoName))))) in
       Retrieval.setLlmInsight
         (Some (Insight.mk cryptoName (option_map JStr randomInsight))))
      (fun message =>
         Retrieval.setInsightError (Some ("Failed to get insight: " ++ message ++ ".")))
      (Retrieval.setIsInsightLoading false)
  else send (insight_request geminiApiKey cryptoName).

(** [getCryptoInsight] from the answer on, lines 87-109. *)
Definition getCryptoInsight_settles (cryptoName : string) (answer : FetchResult)
  : Retrieval.M unit :=
  Retrieval.try_catch_finally
    (response <- received answer ;;
     result <- Retrieval.lift (json_body response) ;;
     expected <- Retrieval.lift (expected_structure E result) ;;
     if expected then
       text <- Retrieval.lift
         (get_path E (Some result)
            [Named "candidates"; Index 0; Named "content"; Named "parts";
             Index 0; Named "text"]) ;;
       Retrieval.setLlmInsight (Some (Insight.mk cryptoName text))
     else
       Retrieval.setInsightError (Some generic_insight_failure))
    (fun message =>
       Retrieval.setInsightError (Some ("Failed to get insight: " ++ message ++ ".")))
    (Retrieval.setIsInsightLoading false).

(** The segments of the calls in flight, in the order in which they run. *)
Inductive Segment : Type :=
| FetchBegins (apiKey : string)
| FetchSettles (answer : FetchResult)
| InsightBegins (random : Q) (geminiApiKey cryptoName : string)
| InsightSettles (cryptoName : string) (answer : FetchResult).

Definition run_segment (st : Retrieval.Store) (segment : Segment) : Retrieval.Store :=
  snd (match segment with
       | FetchBegins apiKey => fetchCryptoData_begins apiKey st
       | FetchSettles answer => fetchCryptoData_settles answer st
       | InsightBegins random geminiApiKey cryptoName =>
           getCryptoInsight_begins random geminiApiKey cryptoName st
       | InsightSettles cryptoName answer =>
           getCryptoInsight_settles cryptoName answer st
       end).

Definition run_segments (st : Retrieval.Store) (segments : list Segment)
  : Retrieval.Store :=
  fold_left run_segment segments st.

End Segments.

Definition is_fetch (segment : Segment) : bool :=
  match segment with
  | FetchBegins _ | FetchSettles _ => true
  | InsightBegins _ _ _ | InsightSettles _ _ => false
  end.

(** The requests a schedule sends: one for each fetch that begins and one
    for each insight call that begins with a key. *)
Definition requests_of (segment : Segment) : list Request :=
  match segment with
  | FetchBegins apiKey => [market_request apiKey]
  | InsightBegins _ geminiApiKey cryptoName =>
      if truthy geminiApiKey then [insight_request geminiApiKey cryptoName] else []
  | FetchSettles _ | InsightSettles _ _ => []
  end.

(** The hooks of the market list and the hooks of the insight. *)
Definition market_hooks (st : Retrieval.Store) : json * bool * option string :=
  (Retrieval.cryptos st, Retrieval.loading st, Retrieval.error st).

Definition insight_hooks (st : Retrieval.Store)
  : option Insight.t * bool * option string :=
  (Retrieval.llmInsight st, Retrieval.isInsightLoading st, Retrieval.insightError st).

(* ================================================================== *)
(** * The two keys and their persistence *)
(* ================================================================== *)

Module Credentials.

(** [localStorage]: the entries in order, at most one per key. *)
Definition Storage : Type := list (string * string).

(** [localStorage.getItem(key)]: [null] for a key without entry. *)
Fixpoint getItem (key : string) (storage : Storage) : option string :=
  match storage with
  | [] => None
  | (k, v) :: rest => if String.eqb k key then Some v else getItem key rest
  end.

(** [localStorage.removeItem(key)] *)
Definition removeItem (key : string) (storage : Storage) : Storage :=
  filter (fun kv => negb (String.eqb (fst kv) key)) storage.

(** [localStorage.setItem(key, value)] *)
Definition setItem (key value : string) (storage : Storage) : Storage :=
  (key, value) :: removeItem key storage.

(** The hooks of the settings (lines 9-16 and 20) and the storage. *)
Record Settings : Type := mkSettings {
  apiKey : string;
  geminiApiKey : string;
  showApiKeyInput : bool;
  localStorage : Storage
}.

(** [localStorage.getItem(key) || ''], the initialiser of both key hooks. *)
Definition stored_or_empty (key : string) (storage : Storage) : string :=
  match getItem key storage with
  | Some v => if truthy v then v else EmptyString
  | None => EmptyString
  end.

(** The settings after mounting over a given storage. *)
Definition mount (storage : Storage) : Settings :=
  mkSettings (stored_or_empty "coinledger_apiKey" storage)
             (stored_or_empty "coinledger_geminiApiKey" storage)
             false storage.

(** [saveApiKey], lines 126-128. *)
Definition saveApiKey (key value : string) (s : Settings) : Settings :=
  mkSettings (apiKey s) (geminiApiKey s) (showApiKeyInput s)
             (setItem ("coinledger_" ++ key) value (localStorage s)).

Definition setApiKey (value : string) (s : Settings) : Settings :=
  mkSettings value (geminiApiKey s) (showApiKeyInput s) (localStorage s).

Definition setGeminiApiKey (value : string) (s : Settings) : Settings :=
  mkSettings (apiKey s) value (showApiKeyInput s) (localStorage s).

Definition setShowApiKeyInput (b : bool) (s : Settings) : Settings :=
  mkSettings (apiKey s) (geminiApiKey s) b (localStorage s).

(** [clearAllApiKeys], lines 131-137. *)
Definition clearAllApiKeys (s : Settings) : Settings :=
  setShowApiKeyInput false
    (setGeminiApiKey EmptyString
       (setApiKey EmptyString
          (mkSettings (apiKey s) (geminiApiKey s) (showApiKeyInput s)
             (removeItem "coinledger_geminiApiKey"
                (removeItem "coinledger_apiKey" (localStorage s)))))).

(** What the settings section renders. *)

(** Line 293: the "API Settings" button, shown in place of the
    "API Keys Configured" label. *)
Definition settings_button (s : Settings) : bool :=
  negb (truthy (apiKey s)) && negb (truthy (geminiApiKey s)).

(** Line 329: the "Clear All Keys" button of the header. *)
Definition header_clear_button (s : Settings) : bool :=
  truthy (apiKey s) && truthy (geminiApiKey s).

(** Line 341: the block with the two key fields. *)
Definition key_fields (s : Settings) : bool :=
  showApiKeyInput s && (negb (truthy (apiKey s)) || negb (truthy (geminiApiKey s))).

(** Line 409, inside the block of line 341: the "Clear All Saved API Keys"
    button. *)
Definition block_clear_button (s : Settings) : bool :=
  key_fields s && (truthy (apiKey s) || truthy (geminiApiKey s)).

(** What the user can do in the settings section.  The chevron that toggles
    the block is always rendered; the other handlers belong to elements
    that exist only under the conditions above. *)
Inductive Event : Type :=
| Toggle                               (* lines 295 and 315 *)
| ChangeApiKey (value : string)        (* [onChange], lines 351-354 *)
| ChangeGeminiApiKey (value : string)  (* [onChange], lines 377-380 *)
| ClearAll.                            (* lines 331 and 412 *)

Definition step (s : Settings) (e : Event) : Settings :=
  match e with
  | Toggle => setShowApiKeyInput (negb (showApiKeyInput s)) s
  | ChangeApiKey value =>
      if key_fields s then saveApiKey "apiKey" value (setApiKey value s) else s
  | ChangeGeminiApiKey value =>
      if key_fields s
      then saveApiKey "geminiApiKey" value (setGeminiApiKey value s) else s
  | ClearAll =>
      if header_clear_button s || block_clear_button s then clearAllApiKeys s else s
  end.

Definition run (s : Settings) (events : list Event) : Settings :=
  fold_left step events s.

(** The states a session can be in: mounted over some storage, then any
    events. *)
Inductive reachable : Settings -> Prop :=
| reachable_mount storage : reachable (mount storage)
| reachable_step s e : reachable s -> reachable (step s e).

(** The storage holds what the hooks hold. *)
Definition in_sync (s : Settings) : Prop :=
  stored_or_empty "coinledger_apiKey" (localStorage s) = apiKey s /\
  stored_or_empty "coinledger_geminiApiKey" (localStorage s) = geminiApiKey s.

End Credentials.

(* ================================================================== *)
(** * The refresh timer *)
(* ================================================================== *)

Module Scheduler.

(** The effect of lines 200-207 depends on [fetchCryptoData], which
    [useCallback] renews exactly when [apiKey] changes (line 58).  React
    runs the effect after mounting and after every render in which the
    dependency changed, running the cleanup of the previous effect first,
    and runs the last cleanup on unmounting.  What the effect and its
    cleanup call is recorded in order. *)
Inductive Call : Type :=
| FetchCryptoData (apiKey : string)   (* a call of [fetchCryptoData] closed over [apiKey] *)
| SetInterval (intervalId : nat)
| ClearInterval (intervalId : nat).

Record Dashboard : Type := mkDashboard {
  mounted : bool;
  apiKey : string;
  (** the running interval: its id and the key its callback is closed over *)
  interval : option (nat * string);
  (** the id the next [setInterval] returns *)
  nextId : nat;
  calls : list Call
}.

(** The body of the effect: one immediate fetch, then the interval. *)
Definition effect (d : Dashboard) : Dashboard :=
  mkDashboard (mounted d) (apiKey d)
    (Some (nextId d, apiKey d)) (S (nextId d))
    (calls d ++ [FetchCryptoData (apiKey d); SetInterval (nextId d)])%list.

(** The cleanup: [clearInterval(intervalId)]. *)
Definition cleanup (d : Dashboard) : Dashboard :=
  match interval d with
  | Some (intervalId, _) =>
      mkDashboard (mounted d) (apiKey d) None (nextId d)
        (calls d ++ [ClearInterval intervalId])%list
  | None => d
  end.

Definition mount (apiKey : string) : Dashboard :=
  effect (mkDashboard true apiKey None 1 []).

Inductive Event : Type :=
| SetApiKey (value : string)   (* [setApiKey(value)] from a field or from clearing *)
| Tick                         (* the running interval fires *)
| Unmount.

Definition step (d : Dashboard) (e : Event) : Dashboard :=
  match e with
  | SetApiKey value =>
      if mounted d && negb (String.eqb value (apiKey d)) then
        let d' := cleanup d in
        effect (mkDashboard (mounted d') value (interval d') (nextId d') (calls d'))
      else d
  | Tick =>
      match interval d with
      | Some (_, key) =>
          mkDashboard (mounted d) (apiKey d) (interval d) (nextId d)
            (calls d ++ [FetchCryptoData key])%list
      | None => d
      end
  | Unmount =>
      if mounted d then
        let d' := cleanup d in
        mkDashboard false (apiKey d') (interval d') (nextId d') (calls d')
      else d
  end.

Definition run (d : Dashboard) (events : list Event) : Dashboard :=
  fold_left step events d.

Inductive reachable : Dashboard -> Prop :=
| reachable_mount key : reachable (mount key)
| reachable_step d e : reachable d -> reachable (step d e).



(** While mounted one interval runs, closed over the current key, with an
    id below the next one; after unmounting none runs. *)
Definition well_formed (d : Dashboard) : Prop :=
  if mounted d
  then exists intervalId,
      interval d = Some (intervalId, apiKey d) /\ (intervalId < nextId d)%nat
  else interval d = None.


End Scheduler.
(* ================================================================== *)
(** * Facts about strings: lower-casing letter by letter *)
(* ================================================================== *)

Section StringFacts.










Lemma startsWith_iff s t : startsWith s t = true <-> exists post, s = t ++ post.
Proof.
  revert s. induction t as [|b t IH]; intros s; simpl.
  - split; [intros _; now exists s | reflexivity].
  - destruct s as [|a s].
    + split; [discriminate | intros [post H]; discriminate].
    + rewrite andb_true_iff, Ascii.eqb_eq, IH. split.
      * intros [-> [post ->]]. now exists post.
      * intros [post H]. injection H as -> ->. split; [reflexivity|].
        now exists post.
Qed.

(** [includes] decides occurrence as a substring. *)
Lemma includes_iff s t :
  includes s t = true <-> exists pre post, s = pre ++ t ++ post.
Proof.
  induction s as [|a s IH]; simpl.
  - destruct (startsWith EmptyString t) eqn:Hp.
    + split; [intros _ | reflexivity].
      apply startsWith_iff in Hp. destruct Hp as [post H].
      now exists EmptyString, post.
    + split; [discriminate|]. intros (pre & post & H).
      destruct pre; simpl in H; [|discriminate].
      assert (startsWith EmptyString t = true) by (apply startsWith_iff; eauto).
      congruence.
  - destruct (startsWith (String a s) t) eqn:Hp.
    + split; [intros _ | reflexivity].
      apply startsWith_iff in Hp. destruct Hp as [post H].
      now exists EmptyString, post.
    + rewrite IH. split.
      * intros (pre & post & ->). now exists (String a pre), post.
      * intros (pre & post & H). destruct pre as [|c pre]; simpl in H.
        -- assert (startsWith (String a s) t = true)
             by (apply startsWith_iff; eauto).
           congruence.
        -- injection H as _ ->. eauto.
Qed.

Lemma includes_empty s : includes s EmptyString = true.
Proof. destruct s; reflexivity. Qed.


End StringFacts.

(* ================================================================== *)
(** * The filtered list and the suggestions *)
(* ================================================================== *)

Section SearchIndex.

Context {CM : CaseMapping}.





(** [Selected] determines its result: there is one list of "exactly the
    matching elements in order". *)
Lemma Selected_functional {A} (P : A -> Prop) l l1 l2 :
  Selected P l l1 -> Selected P l l2 -> l1 = l2.
Proof.
  intros H1. revert l2.
  induction H1; intros l2 H2; inversion H2; subst;
    try contradiction; try reflexivity; f_equal; auto.
Qed.


Lemma Selected_In {A} (P : A -> Prop) l l' :
  Selected P l l' -> forall a, In a l' <-> In a l /\ P a.
Proof.
  induction 1 as [|b l l' Hb _ IH|b l l' Hb _ IH]; intros a; simpl.
  - tauto.
  - rewrite IH. split; [intros [->|[? ?]]; auto | tauto].
  - rewrite IH. split; [tauto|]. intros [[->|?] ?]; [contradiction | auto].
Qed.



Lemma filteredCryptos_nonempty L Q :
  Q <> EmptyString -> filteredCryptos L Q = filter (matches (toLowerCase Q)) L.
Proof. destruct Q; [congruence | reflexivity]. Qed.

Lemma searchSuggestions_empty L : searchSuggestions L EmptyString = [].
Proof. reflexivity. Qed.

Lemma searchSuggestions_nonempty L Q :
  Q <> EmptyString ->
  searchSuggestions L Q = firstn 8 (filter (matches (toLowerCase Q)) L).
Proof. destruct Q; [congruence | reflexivity]. Qed.

Lemma searchSuggestions_length L Q : (List.length (searchSuggestions L Q) <= 8)%nat.
Proof.
  destruct Q as [|c Q]; [simpl; lia|].
  rewrite searchSuggestions_nonempty by discriminate.
  apply firstn_le_length.
Qed.

End SearchIndex.

(** Scenario 7 of the specification. *)
Example filter_bit :
  filteredCryptos [bitcoin; ethereum; bitcoin_cash] "bit" = [bitcoin; bitcoin_cash].
Proof. reflexivity. Qed.

Example filter_bch :
  filteredCryptos [bitcoin; ethereum; bitcoin_cash] "bch" = [bitcoin_cash].
Proof. reflexivity. Qed.

Example filter_upper_case_query :
  filteredCryptos [bitcoin; ethereum; bitcoin_cash] "ETH" = [ethereum].
Proof. reflexivity. Qed.

Example lower_case_of_sigma :
  toLowerCase capital_alpha_sigma = bytes [206; 177; 207; 130]%nat /\
  toLowerCase capital_sigma = bytes [207; 131]%nat.
Proof. split; reflexivity. Qed.

Example filter_accented_name :
  filteredCryptos [bitcoin; accented_eclair] small_e_acute = [accented_eclair].
Proof. reflexivity. Qed.




(* ------------------------------------------------------------------ *)
(** ** Suggestions against the filtered list *)

Lemma firstn_min_length {A} (n : nat) (l : list A) :
  firstn (Nat.min n (List.length l)) l = firstn n l.
Proof.
  destruct (Nat.le_ge_cases n (List.length l)) as [H|H].
  - now rewrite Nat.min_l.
  - rewrite Nat.min_r by exact H.
    now rewrite firstn_all, firstn_all2.
Qed.

Example suggest_bit :
  searchSuggestions [bitcoin; ethereum; bitcoin_cash] "bit" = [bitcoin; bitcoin_cash].
Proof. reflexivity. Qed.

Example suggest_empty_query :
  searchSuggestions [bitcoin; ethereum; bitcoin_cash] EmptyString = [].
Proof. reflexivity. Qed.

(** With the empty query the filtered list is the whole list and nothing
    is suggested. *)
Example empty_query_filters_all_and_suggests_nothing :
  filteredCryptos [bitcoin] EmptyString = [bitcoin] /\
  searchSuggestions [bitcoin] EmptyString = [].
Proof. split; reflexivity. Qed.

(** C2.  For every engine, asset list [L] and query [Q] the suggestion list
    has at most 8 entries and is a prefix of the filtered list; for a
    non-empty [Q] it is the first [min 8 (len filter)] entries of the
    filtered list, in the same order; for the empty [Q] it is the empty
    list. *)
Theorem C2_suggestions_prefix_of_filter {CM : CaseMapping} :
  forall (L : list Asset) (Q : string),
    (List.length (searchSuggestions L Q) <= 8)%nat /\
    (exists rest, filteredCryptos L Q = (searchSuggestions L Q ++ rest)%list) /\
    (Q <> EmptyString ->
     searchSuggestions L Q =
       firstn (Nat.min 8 (List.length (filteredCryptos L Q))) (filteredCryptos L Q)) /\
    (Q = EmptyString -> searchSuggestions L Q = []).
Proof.
  intros L Q. split; [apply searchSuggestions_length|].
  destruct Q as [|c Q].
  - split; [exists L; reflexivity|]. split; [congruence | reflexivity].
  - assert (String c Q <> EmptyString) as Hne by discriminate.
    rewrite (searchSuggestions_nonempty L _ Hne), (filteredCryptos_nonempty L _ Hne).
    split; [|split].
    + exists (skipn 8 (filter (matches (toLowerCase (String c Q))) L)).
      symmetry. apply firstn_skipn.
    + intros _. symmetry. apply firstn_min_length.
    + discriminate.
Qed.

Lemma C2_suggestions_prefix_of_filter_witness :
  searchSuggestions [bitcoin; ethereum; bitcoin_cash] "bit" =
    firstn (Nat.min 8 (List.length (filteredCryptos [bitcoin; ethereum; bitcoin_cash] "bit")))
           (filteredCryptos [bitcoin; ethereum; bitcoin_cash] "bit")
  /\ searchSuggestions [bitcoin; ethereum; bitcoin_cash] EmptyString = [].
Proof.
  split.
  - apply (C2_suggestions_prefix_of_filter [bitcoin; ethereum; bitcoin_cash] "bit").
    discriminate.
  - apply (C2_suggestions_prefix_of_filter [bitcoin; ethereum; bitcoin_cash] EmptyString).
    reflexivity.
Defined.

(* ================================================================== *)
(** * The suggestion navigator: invariants and events *)
(* ================================================================== *)

Section Navigator.

Context {CM : CaseMapping}.

Local Open Scope Z_scope.

Lemma run_cons s e evs : run s (e :: evs) = run (step s e) evs.
Proof. reflexivity. Qed.

Lemma run_app s evs1 evs2 : run s (evs1 ++ evs2)%list = run (run s evs1) evs2.
Proof. apply fold_left_app. Qed.

Lemma reachable_run s evs : reachable s -> reachable (run s evs).
Proof.
  revert s. induction evs as [|e evs IH]; intros s H; simpl; [exact H|].
  apply IH. now constructor.
Qed.

Lemma at_index_Some {A} (arr : list A) i a :
  at_index arr i = Some a -> 0 <= i < Z.of_nat (List.length arr).
Proof.
  unfold at_index. destruct (Z.ltb_spec i 0) as [|Hi]; [discriminate|].
  intros H. assert (nth_error arr (Z.to_nat i) <> None) as Hn by congruence.
  apply nth_error_Some in Hn. lia.
Qed.

Lemma at_index_in_range {A} (arr : list A) i :
  0 <= i < Z.of_nat (List.length arr) -> exists a, at_index arr i = Some a.
Proof.
  intros Hi. unfold at_index.
  destruct (Z.ltb_spec i 0) as [|_]; [lia|].
  destruct (nth_error arr (Z.to_nat i)) as [a|] eqn:E; [now exists a|].
  apply nth_error_None in E. lia.
Qed.

Lemma panel_item s i a :
  nth_error (panel s) i = Some a ->
  showSuggestions s = true /\ nth_error (suggestions s) i = Some a.
Proof.
  unfold panel. destruct (showSuggestions s); simpl.
  - destruct (0 <? List.length (suggestions s))%nat; [auto|].
    destruct i; discriminate.
  - destruct i; discriminate.
Qed.

(** *** Hidden panel, idle cursor *)

Lemma step_hidden_idle s e : hidden_idle s -> hidden_idle (step s e).
Proof.
  unfold hidden_idle. destruct s as [cs q sh i]; simpl.
  destruct e as [v|k| | |n|n|d]; simpl; try tauto.
  - unfold handleKeyDown; simpl. destruct sh; simpl; [|tauto].
    destruct k; simpl; try discriminate; try tauto.
    destruct (i >=? 0); simpl; [|discriminate].
    destruct (at_index _ _); simpl; [tauto | discriminate].
  - destruct (0 <? String.length q)%nat; simpl; [discriminate | tauto].
  - unfold handleClickOutside. destruct (panel _); simpl; tauto.
  - destruct (nth_error _ n) eqn:E; simpl; [|tauto].
    apply panel_item in E. simpl in E. destruct E as [-> _]. discriminate.
  - destruct (nth_error _ n); simpl; tauto.
Qed.

Lemma reachable_hidden_idle s : reachable s -> hidden_idle s.
Proof.
  induction 1 as [|s e _ IH].
  - intros _. reflexivity.
  - now apply step_hidden_idle.
Qed.

(** *** The cursor between two refreshes *)

Lemma step_cursor_valid s e :
  is_refresh e = false -> cursor_valid s -> cursor_valid (step s e).
Proof.
  unfold cursor_valid, suggestions. destruct s as [cs q sh i]; simpl.
  destruct e as [v|k| | |n|n|d]; simpl; intros He Hs; try discriminate.
  - now left.
  - unfold handleKeyDown, suggestions; simpl. destruct sh; simpl; [|exact Hs].
    destruct k; simpl; try exact Hs.
    + destruct (Z.ltb_spec i (Z.of_nat (List.length (searchSuggestions cs q)) - 1));
        lia.
    + destruct (Z.gtb_spec i 0); lia.
    + destruct (i >=? 0); simpl; [|exact Hs].
      destruct (at_index _ _); simpl; [now left | exact Hs].
    + now left.
  - destruct (0 <? String.length q)%nat; simpl; exact Hs.
  - unfold handleClickOutside. destruct (panel _); simpl; [exact Hs | now left].
  - destruct (nth_error _ n) eqn:E; simpl; [|exact Hs].
    apply panel_item in E. destruct E as [_ E]. unfold suggestions in E; simpl in E.
    assert (nth_error (searchSuggestions cs q) n <> None) as Hn by congruence.
    apply nth_error_Some in Hn. right. lia.
  - destruct (nth_error _ n); simpl; [now left | exact Hs].
Qed.

Lemma run_cursor_valid evs : forall s,
  Forall (fun e => is_refresh e = false) evs ->
  cursor_valid s -> cursor_valid (run s evs).
Proof.
  induction evs as [|e evs IH]; intros s Hall Hs; simpl; [exact Hs|].
  inversion Hall; subst. apply IH; [assumption|].
  now apply step_cursor_valid.
Qed.

Lemma initial_cursor_valid : cursor_valid initial.
Proof. now left. Qed.

(** *** Runs of one arrow key *)

Lemma moveDown_shown s :
  showSuggestions s = true ->
  step s moveDown =
    setSelectedSuggestionIndex
      (if selectedSuggestionIndex s <? Z.of_nat (List.length (suggestions s)) - 1
       then selectedSuggestionIndex s + 1 else selectedSuggestionIndex s) s.
Proof. intros H. simpl. unfold handleKeyDown. now rewrite H. Qed.

Lemma moveUp_shown s :
  showSuggestions s = true ->
  step s moveUp =
    setSelectedSuggestionIndex
      (if selectedSuggestionIndex s >? 0
       then selectedSuggestionIndex s - 1 else -1) s.
Proof. intros H. simpl. unfold handleKeyDown. now rewrite H. Qed.

Lemma keyDown_hidden s k :
  showSuggestions s = false -> step s (KeyDown k) = s.
Proof. intros H. simpl. unfold handleKeyDown. now rewrite H. Qed.

Lemma run_hidden_keys s k n :
  showSuggestions s = false -> run s (repeat (KeyDown k) n) = s.
Proof.
  intros H. induction n as [|n IH]; [reflexivity|].
  cbn [repeat]. now rewrite run_cons, keyDown_hidden.
Qed.

Lemma run_moveDown_shown n : forall s,
  showSuggestions s = true ->
  -1 <= selectedSuggestionIndex s <= Z.of_nat (List.length (suggestions s)) - 1 ->
  run s (repeat moveDown n) =
    setSelectedSuggestionIndex
      (Z.min (selectedSuggestionIndex s + Z.of_nat n)
             (Z.of_nat (List.length (suggestions s)) - 1)) s.
Proof.
  induction n as [|n IH]; intros s Hsh Hr.
  - simpl. destruct s as [cs q sh i]; simpl in *.
    unfold setSelectedSuggestionIndex; simpl. f_equal. lia.
  - cbn [repeat]. rewrite run_cons, (moveDown_shown s Hsh).
    destruct s as [cs q sh i]; simpl in *.
    unfold suggestions in *; simpl in *.
    set (len := Z.of_nat (List.length (searchSuggestions cs q))) in *.
    rewrite IH; simpl; unfold suggestions; simpl; fold len.
    + unfold setSelectedSuggestionIndex; simpl. f_equal.
      destruct (Z.ltb_spec i (len - 1)); lia.
    + exact Hsh.
    + destruct (Z.ltb_spec i (len - 1)); lia.
Qed.

Lemma run_moveUp_shown n : forall s,
  showSuggestions s = true ->
  -1 <= selectedSuggestionIndex s ->
  run s (repeat moveUp n) =
    setSelectedSuggestionIndex
      (Z.max (selectedSuggestionIndex s - Z.of_nat n) (-1)) s.
Proof.
  induction n as [|n IH]; intros s Hsh Hr.
  - simpl. destruct s as [cs q sh i]; simpl in *.
    unfold setSelectedSuggestionIndex; simpl. f_equal. lia.
  - cbn [repeat]. rewrite run_cons, (moveUp_shown s Hsh).
    destruct s as [cs q sh i]; simpl in *.
    rewrite IH; simpl.
    + unfold setSelectedSuggestionIndex; simpl. f_equal.
      destruct (Z.gtb_spec i 0); lia.
    + exact Hsh.
    + destruct (Z.gtb_spec i 0); lia.
Qed.

End Navigator.

Section NavigatorClaims.

Local Open Scope Z_scope.

Example stale_cursor_state :
  run initial stale_cursor_trace = mkState [bitcoin] "bit" true 1.
Proof. reflexivity. Qed.

(** C3, as stated, fails: a refresh replaces the asset list and with it
    the suggestion list, and leaves the cursor where it was.  After the
    trace [stale_cursor_trace] from the initial state the suggestion list
    has one entry and the cursor is 1. *)
Lemma C3_counterexample_refresh_keeps_cursor :
  reachable (run initial stale_cursor_trace) /\
  suggestions (run initial stale_cursor_trace) = [bitcoin] /\
  selectedSuggestionIndex (run initial stale_cursor_trace) = 1 /\
  ~ cursor_valid (run initial stale_cursor_trace).
Proof.
  split; [apply reachable_run; constructor|].
  split; [reflexivity|]. split; [reflexivity|].
  unfold cursor_valid. rewrite stale_cursor_state. simpl.
  intros [H|H]; [discriminate | lia].
Qed.

(** C3, amended.  The cursor is [-1] or a valid index into the current
    suggestion list in the initial state and this is kept by every
    sequence of events other than an asset-list refresh (query changes,
    key presses, focus, press outside, hover, click).  A refresh
    recomputes the suggestion list and leaves the cursor as it is; the
    cursor is read by [confirm] through an existence check, so a cursor
    with no suggestion under it selects nothing. *)
Theorem C3_cursor_valid_between_refreshes {CM : CaseMapping} :
  cursor_valid initial /\
  (forall (s : State) (events : list Event),
      cursor_valid s ->
      Forall (fun e => is_refresh e = false) events ->
      cursor_valid (run s events)) /\
  (forall (s : State) (data : list Asset),
      selectedSuggestionIndex (step s (Refresh data)) = selectedSuggestionIndex s) /\
  (forall (s : State),
      at_index (suggestions s) (selectedSuggestionIndex s) = None ->
      step s confirm = s).
Proof.
  split; [apply initial_cursor_valid|].
  split; [intros s events Hs Hall; now apply run_cursor_valid|].
  split; [reflexivity|].
  intros s H. simpl. unfold handleKeyDown. rewrite H.
  destruct (negb (showSuggestions s)); [reflexivity|].
  now destruct (selectedSuggestionIndex s >=? 0).
Qed.

Lemma C3_cursor_valid_between_refreshes_witness :
  cursor_valid
    (run (mkState [bitcoin; bitcoin_cash] EmptyString false (-1))
         [queryChanged "bit"; moveDown; moveDown; moveDown; moveUp; hover 1;
          cancel; Focus; moveDown; confirm])
  /\ step (mkState [bitcoin] "bit" true 1) confirm = mkState [bitcoin] "bit" true 1.
Proof.
  split.
  - apply (proj1 (proj2 C3_cursor_valid_between_refreshes)).
    + left. reflexivity.
    + repeat constructor.
  - apply (proj2 (proj2 (proj2 C3_cursor_valid_between_refreshes))).
    reflexivity.
Defined.

Example moveDown_saturates :
  run (mkState [bitcoin; bitcoin_cash] "bit" true (-1)) (repeat moveDown 5)
  = mkState [bitcoin; bitcoin_cash] "bit" true 1.
Proof. reflexivity. Qed.

Example moveUp_saturates :
  run (mkState [bitcoin; bitcoin_cash] "bit" true 1) (repeat moveUp 5)
  = mkState [bitcoin; bitcoin_cash] "bit" true (-1).
Proof. reflexivity. Qed.

(** C4.  From a cursor in [[-1, len-1]], where [len] is the length of the
    suggestion list, any number [n] of [moveDown] events leaves the
    suggestion list alone and the cursor between its old value and
    [len-1]; any number of [moveUp] events leaves it between [-1] and its
    old value.  While the panel is shown the cursor after [n] [moveDown]
    is [min (cursor+n) (len-1)] and after [n] [moveUp] is
    [max (cursor-n) (-1)]: both saturate and neither wraps around. *)
Theorem C4_arrow_keys_saturate {CM : CaseMapping} :
  forall (s : State) (n : nat),
    -1 <= selectedSuggestionIndex s <= Z.of_nat (List.length (suggestions s)) - 1 ->
    let len := Z.of_nat (List.length (suggestions s)) in
    let down := run s (repeat moveDown n) in
    let up := run s (repeat moveUp n) in
    suggestions down = suggestions s /\
    selectedSuggestionIndex s <= selectedSuggestionIndex down <= len - 1 /\
    suggestions up = suggestions s /\
    -1 <= selectedSuggestionIndex up <= selectedSuggestionIndex s /\
    (showSuggestions s = true ->
     selectedSuggestionIndex down = Z.min (selectedSuggestionIndex s + Z.of_nat n) (len - 1) /\
     selectedSuggestionIndex up = Z.max (selectedSuggestionIndex s - Z.of_nat n) (-1)).
Proof.
  intros s n Hr len down up. subst len down up.
  destruct (showSuggestions s) eqn:Hsh.
  - rewrite (run_moveDown_shown n s Hsh Hr).
    rewrite (run_moveUp_shown n s Hsh) by lia.
    unfold suggestions in *; simpl in *.
    repeat split; try reflexivity; lia.
  - unfold moveDown, moveUp. rewrite !run_hidden_keys by exact Hsh.
    repeat split; try lia.
Qed.

Lemma C4_arrow_keys_saturate_witness :
  selectedSuggestionIndex
    (run (mkState [bitcoin; bitcoin_cash] "bit" true 0) (repeat moveDown 7)) = 1
  /\ selectedSuggestionIndex
    (run (mkState [bitcoin; bitcoin_cash] "bit" true 0) (repeat moveUp 7)) = -1.
Proof.
  assert (-1 <= selectedSuggestionIndex (mkState [bitcoin; bitcoin_cash] "bit" true 0)
          <= Z.of_nat (List.length (suggestions (mkState [bitcoin; bitcoin_cash] "bit" true 0))) - 1)
    as Hr by (simpl; lia).
  pose proof (C4_arrow_keys_saturate _ 7%nat Hr) as H.
  destruct H as (_ & _ & _ & _ & H).
  destruct (H eq_refl) as [Hd Hu]. split; [exact Hd | exact Hu].
Defined.

Example confirm_selects :
  step (mkState [bitcoin; bitcoin_cash] "bit" true 1) confirm
  = mkState [bitcoin; bitcoin_cash] "Bitcoin Cash" false (-1).
Proof. reflexivity. Qed.

(** C5.  In every reachable state: [confirm] with the cursor at [-1]
    changes nothing (query and cursor included); [confirm] with the
    cursor at or above 0 and a suggestion under it sets the query to the
    name of that asset, hides the suggestions and resets the cursor to
    [-1], with the asset list untouched. *)
Theorem C5_confirm {CM : CaseMapping} :
  forall (s : State),
    reachable s ->
    (selectedSuggestionIndex s = -1 -> step s confirm = s) /\
    (forall crypto : Asset,
        0 <= selectedSuggestionIndex s ->
        at_index (suggestions s) (selectedSuggestionIndex s) = Some crypto ->
        step s confirm = mkState (cryptos s) (name crypto) false (-1)).
Proof.
  intros s Hreach. split.
  - intros H. simpl. unfold handleKeyDown. rewrite H.
    now destruct (negb (showSuggestions s)).
  - intros crypto Hi Hc.
    pose proof (reachable_hidden_idle s Hreach) as Hidle.
    destruct (showSuggestions s) eqn:Hsh; [|specialize (Hidle Hsh); lia].
    simpl. unfold handleKeyDown. rewrite Hsh, Hc. simpl.
    destruct (Z.geb_spec (selectedSuggestionIndex s) 0); [reflexivity | lia].
Qed.

Lemma C5_confirm_witness :
  step (run initial [Refresh [bitcoin; bitcoin_cash]; queryChanged "bit"; moveDown; moveDown])
       confirm
  = mkState [bitcoin; bitcoin_cash] "Bitcoin Cash" false (-1)
  /\ step (run initial [Refresh [bitcoin; bitcoin_cash]; queryChanged "bit"]) confirm
     = run initial [Refresh [bitcoin; bitcoin_cash]; queryChanged "bit"].
Proof.
  split.
  - apply (proj2 (C5_confirm
                    (run initial [Refresh [bitcoin; bitcoin_cash]; queryChanged "bit";
                                  moveDown; moveDown])
                    (reachable_run _ _ reachable_initial)) bitcoin_cash).
    + simpl. lia.
    + reflexivity.
  - apply (proj1 (C5_confirm
                    (run initial [Refresh [bitcoin; bitcoin_cash]; queryChanged "bit"])
                    (reachable_run _ _ reachable_initial))).
    reflexivity.
Defined.

(** C8.  From every state, two [cancel] events in a row give the same
    state as one; and in every reachable state the state after one (hence
    after two) has the cursor at [-1] and the suggestions hidden. *)
Theorem C8_cancel_idempotent {CM : CaseMapping} :
  forall (s : State),
    step (step s cancel) cancel = step s cancel /\
    (reachable s ->
     selectedSuggestionIndex (step s cancel) = -1 /\
     showSuggestions (step s cancel) = false /\
     selectedSuggestionIndex (step (step s cancel) cancel) = -1 /\
     showSuggestions (step (step s cancel) cancel) = false).
Proof.
  intros s.
  assert (step (step s cancel) cancel = step s cancel) as Hidem.
  { simpl. unfold handleKeyDown. destruct (showSuggestions s) eqn:Hsh; simpl.
    - reflexivity.
    - now rewrite Hsh. }
  split; [exact Hidem|]. intros Hreach. rewrite Hidem.
  pose proof (reachable_hidden_idle s Hreach) as Hidle.
  simpl. unfold handleKeyDown.
  destruct (showSuggestions s) eqn:Hsh; simpl; auto.
Qed.

Lemma C8_cancel_idempotent_witness :
  selectedSuggestionIndex
    (step (run initial [Refresh [bitcoin]; queryChanged "b"; moveDown]) cancel) = -1
  /\ showSuggestions
    (step (run initial [Refresh [bitcoin]; queryChanged "b"; moveDown]) cancel) = false.
Proof.
  destruct (proj2 (C8_cancel_idempotent
                     (run initial [Refresh [bitcoin]; queryChanged "b"; moveDown]))
                  (reachable_run _ _ reachable_initial)) as (H1 & H2 & _).
  split; [exact H1 | exact H2].
Defined.

(** C10.  While the suggestion panel is hidden, every key press on the
    search input ([moveDown], [moveUp], [confirm], [cancel], and any other
    key) leaves the whole state as it is: asset list, query, cursor and
    visibility. *)
Theorem C10_hidden_panel_ignores_keys {CM : CaseMapping} :
  forall (s : State) (key : Key),
    showSuggestions s = false ->
    step s (KeyDown key) = s /\
    step s moveDown = s /\ step s moveUp = s /\
    step s confirm = s /\ step s cancel = s.
Proof.
  intros s key H. repeat split; apply keyDown_hidden; exact H.
Qed.

Lemma C10_hidden_panel_ignores_keys_witness :
  step (mkState [bitcoin] "bit" false (-1)) confirm = mkState [bitcoin] "bit" false (-1).
Proof.
  apply (C10_hidden_panel_ignores_keys (mkState [bitcoin] "bit" false (-1)) Enter).
  reflexivity.
Defined.

End NavigatorClaims.

(* ================================================================== *)
(** * Retrieval: the insight fallback and the failure messages *)
(* ================================================================== *)

Example decimal_429 : decimal 429 = "429".
Proof. reflexivity. Qed.

Example insight_generated :
  getCryptoInsight sample_engine (answering (generated "Bitcoin is up."))
    (1#2) "k" "Bitcoin" Retrieval.initial
  = (Normal tt,
     Retrieval.mkStore (JArr []) true None
       (Some (Insight.mk "Bitcoin" (Some (JStr "Bitcoin is up."))))
       false None [insight_request "k" "Bitcoin"]).
Proof. reflexivity. Qed.

Example insight_null_body :
  Retrieval.insightError
    (snd (getCryptoInsight sample_engine (answering null_body) (1#2) "k" "Bitcoin"
            Retrieval.initial))
  = Some "Failed to get insight: Cannot read properties of null (reading 'candidates').".
Proof. reflexivity. Qed.

Example fetch_rate_limited :
  Retrieval.error
    (snd (fetchCryptoData sample_engine (answering rate_limited) EmptyString Retrieval.initial))
  = Some "Failed to load cryptocurrency data: HTTP error! Status: 429 - Unknown error. Please check your API key or try again later.".
Proof. reflexivity. Qed.

Section InsightFallback.

Variable E : Engine.
Variable net : Network.

Lemma getCryptoInsight_no_key random cryptoName st :
  getCryptoInsight E net random EmptyString cryptoName st =
    (Normal tt,
     local_insight
       (Insight.mk cryptoName
          (option_map JStr
             (at_index (fallbackInsights cryptoName) (Qfloor (random * inject_Z 4)))))
       st).
Proof. reflexivity. Qed.

(** For [0 <= random < 1] the index [floor (random * 4)] is one of 0..3. *)
Lemma random_index_range (random : Q) :
  0 <= random < 1 -> (0 <= Qfloor (random * inject_Z 4) < 4)%Z.
Proof.
  intros [H0 H1].
  assert (0 <= random * inject_Z 4) as Hlo
      by (apply Qmult_le_0_compat; [exact H0 | discriminate]).
  assert (random * inject_Z 4 < inject_Z 4) as Hhi.
  { setoid_replace (inject_Z 4) with (1 * inject_Z 4) at 2 by ring.
    apply Qmult_lt_compat_r; [reflexivity | exact H1]. }
  split.
  - change 0%Z with (Qfloor 0). now apply Qfloor_resp_le.
  - rewrite Zlt_Qlt. eapply Qle_lt_trans; [apply Qfloor_le | exact Hhi].
Qed.

Lemma fallback_not_empty cryptoName text :
  In text (fallbackInsights cryptoName) -> text <> EmptyString.
Proof.
  intros H Hempty. subst text. simpl in H.
  assert (forall suffix, EmptyString <> cryptoName ++ String " " suffix) as Hne
      by (intros suffix; destruct cryptoName; discriminate).
  destruct H as [H|[H|[H|[H|[]]]]]; symmetry in H; revert H; apply Hne.
Qed.

End InsightFallback.

(** C6.  With no insight key (the empty string), for every engine, network,
    asset name, store and every value [0 <= random < 1] of [Math.random()],
    [getCryptoInsight] ends normally, sends nothing ([sent] is unchanged and
    the network is not asked), leaves no insight error, and displays an
    insight whose name is the requested name and whose text is one of the
    four fallback sentences built from that name, which is not empty. *)
Theorem C6_fallback_without_key :
  forall (E : Engine) (net : Network) (random : Q) (cryptoName : string)
         (st : Retrieval.Store),
    0 <= random < 1 ->
    exists text : string,
      In text (fallbackInsights cryptoName) /\
      text <> EmptyString /\
      (exists suffix, text = cryptoName ++ suffix) /\
      getCryptoInsight E net random EmptyString cryptoName st =
        (Normal tt, local_insight (Insight.mk cryptoName (Some (JStr text))) st).
Proof.
  intros E net random cryptoName st Hr.
  rewrite getCryptoInsight_no_key.
  pose proof (random_index_range random Hr) as Hz.
  set (z := Qfloor (random * inject_Z 4)) in *.
  assert (exists text, at_index (fallbackInsights cryptoName) z = Some text) as [text Ht].
  { apply at_index_in_range. simpl. lia. }
  assert (In text (fallbackInsights cryptoName)) as Hin.
  { unfold at_index in Ht. destruct (z <? 0)%Z; [discriminate|].
    eapply nth_error_In; exact Ht. }
  exists text. rewrite Ht. simpl.
  split; [exact Hin|]. split; [now apply (fallback_not_empty cryptoName)|].
  split; [|reflexivity].
  simpl in Hin. destruct Hin as [H|[H|[H|[H|[]]]]]; subst text; eauto.
Qed.

Lemma C6_fallback_without_key_witness :
  exists text : string,
    In text (fallbackInsights "Bitcoin") /\
    text <> EmptyString /\
    (exists suffix, text = "Bitcoin" ++ suffix) /\
    getCryptoInsight sample_engine (answering null_body) (3#4) EmptyString "Bitcoin"
      Retrieval.initial =
      (Normal tt,
       local_insight (Insight.mk "Bitcoin" (Some (JStr text))) Retrieval.initial).
Proof.
  apply (C6_fallback_without_key sample_engine (answering null_body) (3#4) "Bitcoin"
           Retrieval.initial).
  split; [discriminate | reflexivity].
Defined.

Section MarketDataFailures.

Variable E : Engine.
Variable net : Network.
Variable apiKey : string.
Variable st : Retrieval.Store.
Variable response : Response.
Hypothesis answer : net (market_request apiKey) = Resolved response.

Ltac run_fetch :=
  unfold fetchCryptoData, Retrieval.bind, Retrieval.try_catch_finally,
    Retrieval.fetch, Retrieval.lift, Retrieval.throw, Retrieval.ret,
    Retrieval.setLoading, Retrieval.setError, Retrieval.setCryptos;
  cbn [Retrieval.cryptos Retrieval.loading Retrieval.error Retrieval.llmInsight
       Retrieval.isInsightLoading Retrieval.insightError Retrieval.sent];
  fold (market_request apiKey); rewrite answer.

(** A non-success status: the message is built from the status and the
    text chosen from the body. *)
Lemma fetch_http_error detail :
  ok response = false ->
  cbind (ccatch (json_body response)
                (fun _ => Normal (JObj [("message", JStr (statusText response))])))
        (fun errorData => cbind (error_detail E errorData) (to_string E))
    = Normal detail ->
  fetchCryptoData E net apiKey st =
    (Normal tt, failed_load apiKey (http_error_message response detail) st).
Proof.
  intros Hok Hdetail. run_fetch. rewrite Hok. cbn [negb].
  destruct (ccatch (json_body response) _) as [errorData|m]; [|discriminate].
  cbn [cbind] in Hdetail |- *. rewrite Hdetail. reflexivity.
Qed.

(** A success status and a body that does not parse: the message is the
    one of the parser. *)
Lemma fetch_parse_error message :
  ok response = true ->
  json_body response = Throw message ->
  fetchCryptoData E net apiKey st = (Normal tt, failed_load apiKey message st).
Proof.
  intros Hok Hbody. run_fetch. rewrite Hok, Hbody. reflexivity.
Qed.

(** A non-success status and a throw while the text is chosen or converted:
    the message is the thrown one. *)
Lemma fetch_detail_throws message :
  ok response = false ->
  cbind (ccatch (json_body response)
                (fun _ => Normal (JObj [("message", JStr (statusText response))])))
        (fun errorData => cbind (error_detail E errorData) (to_string E))
    = Throw message ->
  fetchCryptoData E net apiKey st = (Normal tt, failed_load apiKey message st).
Proof.
  intros Hok Hdetail. run_fetch. rewrite Hok. cbn [negb].
  destruct (ccatch (json_body response) _) as [errorData|m].
  - cbn [cbind] in Hdetail |- *. rewrite Hdetail. reflexivity.
  - cbn [cbind] in Hdetail. injection Hdetail as ->. reflexivity.
Qed.

Lemma truthy_not_empty s : s <> EmptyString -> truthy s = true.
Proof. destruct s; [congruence | reflexivity]. Qed.

End MarketDataFailures.

(** C7, as stated, fails in two ways.  An answer with a non-success status
    whose body parses but has neither an [error] nor a [message] member (the
    rate-limit answer) gives the text "Unknown error" and not the status
    text; and an answer with a success status whose body does not parse
    gives the parser's message, with no status code in it. *)
Lemma C7_counterexample_unknown_error_and_parse_error :
  Retrieval.error
    (snd (fetchCryptoData sample_engine (answering rate_limited) EmptyString
            Retrieval.initial))
  = Some "Failed to load cryptocurrency data: HTTP error! Status: 429 - Unknown error. Please check your API key or try again later."
  /\ includes
       "Failed to load cryptocurrency data: HTTP error! Status: 429 - Unknown error. Please check your API key or try again later."
       (statusText rate_limited) = false
  /\ Retrieval.error
       (snd (fetchCryptoData sample_engine (answering html_instead_of_json) EmptyString
               Retrieval.initial))
     = Some "Failed to load cryptocurrency data: Unexpected token '<', is not valid JSON. Please check your API key or try again later."
  /\ includes
       "Failed to load cryptocurrency data: Unexpected token '<', is not valid JSON. Please check your API key or try again later."
       (decimal (status html_instead_of_json)) = false.
Proof. repeat split; reflexivity. Qed.

(** C7, amended.  Let the market-data request be answered by [response];
    a failed load reports "Failed to load cryptocurrency data: <message>.
    Please check your API key or try again later.".  With a non-success
    status, <message> is "HTTP error! Status: <status> - <text>" in all but
    the two cases named last, and <text> is:
    - the raw status text when the body does not parse, or "Unknown error"
      when the status text is empty as well;
    - "Unknown error" when the body parses to a boolean, a number, a string
      or a list;
    - for a body that parses to an object, the string conversion of its
      [error] member when that is truthy, otherwise of its [message] member
      when that is truthy (a string member is its own conversion), and
      "Unknown error" when neither is truthy.
    The two cases in which <message> carries no status: the body parses to
    [null], and <message> is the engine's message for the failed read of
    [error]; or the conversion of the chosen member throws, and <message>
    is the thrown one.  With a success status and a body that does not
    parse, <message> is the parser's message, without status. *)
Theorem C7_fetch_failure_messages :
  forall (E : Engine) (net : Network) (apiKey : string) (st : Retrieval.Store)
         (response : Response),
    net (market_request apiKey) = Resolved response ->
    let fails_with message :=
      fetchCryptoData E net apiKey st = (Normal tt, failed_load apiKey message st) in
    let http_error text :=
      "HTTP error! Status: " ++ decimal (status response) ++ " - " ++ text in
    (forall parse_message,
        ok response = false ->
        json_body response = Throw parse_message ->
        statusText response <> EmptyString ->
        fails_with (http_error (statusText response))) /\
    (forall parse_message,
        ok response = false ->
        json_body response = Throw parse_message ->
        statusText response = EmptyString ->
        fails_with (http_error "Unknown error")) /\
    (forall members e,
        ok response = false ->
        json_body response = Normal (JObj members) ->
        member "error" members = Some (JStr e) -> e <> EmptyString ->
        fails_with (http_error e)) /\
    (forall members m,
        ok response = false ->
        json_body response = Normal (JObj members) ->
        truthy_value (member "error" members) = false ->
        member "message" members = Some (JStr m) -> m <> EmptyString ->
        fails_with (http_error m)) /\
    (forall members,
        ok response = false ->
        json_body response = Normal (JObj members) ->
        truthy_value (member "error" members) = false ->
        truthy_value (member "message" members) = false ->
        fails_with (http_error "Unknown error")) /\
    (forall parse_message,
        ok response = true ->
        json_body response = Throw parse_message ->
        fails_with parse_message) /\
    (forall members text,
        ok response = false ->
        json_body response = Normal (JObj members) ->
        truthy_value (member "error" members) = true ->
        to_string E (member "error" members) = Normal text ->
        fails_with (http_error text)) /\
    (forall members text,
        ok response = false ->
        json_body response = Normal (JObj members) ->
        truthy_value (member "error" members) = false ->
        truthy_value (member "message" members) = true ->
        to_string E (member "message" members) = Normal text ->
        fails_with (http_error text)) /\
    (forall members thrown,
        ok response = false ->
        json_body response = Normal (JObj members) ->
        truthy_value (member "error" members) = true ->
        to_string E (member "error" members) = Throw thrown ->
        fails_with thrown) /\
    (forall members thrown,
        ok response = false ->
        json_body response = Normal (JObj members) ->
        truthy_value (member "error" members) = false ->
        truthy_value (member "message" members) = true ->
        to_string E (member "message" members) = Throw thrown ->
        fails_with thrown) /\
    (forall result,
        ok response = false ->
        json_body response = Normal result ->
        result <> JNull ->
        (forall members, result <> JObj members) ->
        fails_with (http_error "Unknown error")) /\
    (ok response = false ->
     json_body response = Normal JNull ->
     fails_with (nullish_read_message E (Some JNull) "error")).
Proof.
  intros E net apiKey st response Hnet fails_with http_error.
  subst fails_with http_error. cbv beta.
  repeat apply conj.
  - intros pm Hok Hbody Hst.
    apply (fetch_http_error E net apiKey st response Hnet _ Hok).
    rewrite Hbody. cbn -[truthy_value]. cbn [truthy_value].
    now rewrite (truthy_not_empty _ Hst).
  - intros pm Hok Hbody Hst.
    apply (fetch_http_error E net apiKey st response Hnet _ Hok).
    rewrite Hbody, Hst. reflexivity.
  - intros members e Hok Hbody He Hne.
    apply (fetch_http_error E net apiKey st response Hnet _ Hok).
    rewrite Hbody. unfold error_detail. cbn [ccatch cbind get key_text].
    rewrite He. cbn [truthy_value]. now rewrite (truthy_not_empty _ Hne).
  - intros members m Hok Hbody He Hm Hne.
    apply (fetch_http_error E net apiKey st response Hnet _ Hok).
    rewrite Hbody. unfold error_detail. cbn [ccatch cbind get key_text].
    rewrite He, Hm. cbn [truthy_value]. now rewrite (truthy_not_empty _ Hne).
  - intros members Hok Hbody He Hm.
    apply (fetch_http_error E net apiKey st response Hnet _ Hok).
    rewrite Hbody. unfold error_detail. cbn [ccatch cbind get key_text].
    now rewrite He, Hm.
  - intros pm Hok Hbody.
    now apply (fetch_parse_error E net apiKey st response Hnet).
  - intros members text Hok Hbody He Htext.
    apply (fetch_http_error E net apiKey st response Hnet _ Hok).
    rewrite Hbody. unfold error_detail. cbn [ccatch cbind get key_text].
    rewrite He. cbn [cbind]. exact Htext.
  - intros members text Hok Hbody He Hm Htext.
    apply (fetch_http_error E net apiKey st response Hnet _ Hok).
    rewrite Hbody. unfold error_detail. cbn [ccatch cbind get key_text].
    rewrite He, Hm. cbn [cbind]. exact Htext.
  - intros members thrown Hok Hbody He Htext.
    apply (fetch_detail_throws E net apiKey st response Hnet _ Hok).
    rewrite Hbody. unfold error_detail. cbn [ccatch cbind get key_text].
    rewrite He. cbn [cbind]. exact Htext.
  - intros members thrown Hok Hbody He Hm Htext.
    apply (fetch_detail_throws E net apiKey st response Hnet _ Hok).
    rewrite Hbody. unfold error_detail. cbn [ccatch cbind get key_text].
    rewrite He, Hm. cbn [cbind]. exact Htext.
  - intros result Hok Hbody Hnull Hobj.
    apply (fetch_http_error E net apiKey st response Hnet _ Hok).
    rewrite Hbody.
    destruct result as [|b|q|s|items|members]; try reflexivity.
    + congruence.
    + exfalso. now apply (Hobj members).
  - intros Hok Hbody.
    apply (fetch_detail_throws E net apiKey st response Hnet _ Hok).
    rewrite Hbody. reflexivity.
Qed.

Lemma C7_fetch_failure_messages_witness :
  fetchCryptoData sample_engine
    (answering (mkResponse 503 "Service Unavailable" (Throw "Unexpected end of JSON input")))
    "demo" Retrieval.initial
  = (Normal tt,
     failed_load "demo" "HTTP error! Status: 503 - Service Unavailable" Retrieval.initial)
  /\ fetchCryptoData sample_engine
       (answering (mkResponse 401 "Unauthorized" (Normal (JObj [("error", JStr "invalid key")]))))
       "demo" Retrieval.initial
     = (Normal tt, failed_load "demo" "HTTP error! Status: 401 - invalid key" Retrieval.initial)
  /\ fetchCryptoData sample_engine (answering rate_limited) "demo" Retrieval.initial
     = (Normal tt, failed_load "demo" "HTTP error! Status: 429 - Unknown error" Retrieval.initial)
  /\ fetchCryptoData sample_engine (answering html_instead_of_json) "demo" Retrieval.initial
     = (Normal tt,
        failed_load "demo" "Unexpected token '<', is not valid JSON" Retrieval.initial)
  /\ fetchCryptoData sample_engine (answering null_body) "demo" Retrieval.initial
     = (Normal tt,
        failed_load "demo" "Cannot read properties of null (reading 'error')"
          Retrieval.initial)
  /\ fetchCryptoData sample_engine
       (answering (mkResponse 502 "Bad Gateway" (Normal (JStr "upstream down"))))
       "demo" Retrieval.initial
     = (Normal tt, failed_load "demo" "HTTP error! Status: 502 - Unknown error"
                     Retrieval.initial)
  /\ fetchCryptoData sample_engine
       (answering (mkResponse 429 "Too Many Requests"
                     (Normal (JObj [("error", JObj [("code", JNum (inject_Z 429))]);
                                    ("message", JStr "slow down")]))))
       "demo" Retrieval.initial
     = (Normal tt, failed_load "demo" "HTTP error! Status: 429 - [object Object]"
                     Retrieval.initial).
Proof.
  repeat apply conj.
  - apply (proj1 (C7_fetch_failure_messages sample_engine
                    (answering (mkResponse 503 "Service Unavailable"
                                  (Throw "Unexpected end of JSON input")))
                    "demo" Retrieval.initial _ eq_refl)
             "Unexpected end of JSON input");
      [reflexivity | reflexivity | discriminate].
  - apply (proj1 (proj2 (proj2 (C7_fetch_failure_messages sample_engine
                    (answering (mkResponse 401 "Unauthorized"
                                  (Normal (JObj [("error", JStr "invalid key")]))))
                    "demo" Retrieval.initial _ eq_refl)))
             [("error", JStr "invalid key")] "invalid key");
      [reflexivity | reflexivity | reflexivity | discriminate].
  - apply (proj1 (proj2 (proj2 (proj2 (proj2
             (C7_fetch_failure_messages sample_engine (answering rate_limited)
                "demo" Retrieval.initial _ eq_refl)))))
             [("status",
               JObj [("error_code", JNum (inject_Z 429));
                     ("error_message", JStr "You've exceeded the Rate Limit.")])]);
      reflexivity.
  - apply (proj1 (proj2 (proj2 (proj2 (proj2 (proj2
             (C7_fetch_failure_messages sample_engine (answering html_instead_of_json)
                "demo" Retrieval.initial _ eq_refl))))))
             "Unexpected token '<', is not valid JSON");
      reflexivity.
  - apply (proj2 (proj2 (proj2 (proj2 (proj2 (proj2 (proj2 (proj2 (proj2 (proj2 (proj2
             (C7_fetch_failure_messages sample_engine (answering null_body)
                "demo" Retrieval.initial _ eq_refl))))))))))));
      reflexivity.
  - apply (proj1 (proj2 (proj2 (proj2 (proj2 (proj2 (proj2 (proj2 (proj2 (proj2 (proj2
             (C7_fetch_failure_messages sample_engine
                (answering (mkResponse 502 "Bad Gateway" (Normal (JStr "upstream down"))))
                "demo" Retrieval.initial _ eq_refl)))))))))))
             (JStr "upstream down"));
      [reflexivity | reflexivity | discriminate | discriminate].
  - apply (proj1 (proj2 (proj2 (proj2 (proj2 (proj2 (proj2
             (C7_fetch_failure_messages sample_engine
                (answering (mkResponse 429 "Too Many Requests"
                              (Normal (JObj [("error", JObj [("code", JNum (inject_Z 429))]);
                                             ("message", JStr "slow down")]))))
                "demo" Retrieval.initial _ eq_refl)))))))
             [("error", JObj [("code", JNum (inject_Z 429))]);
              ("message", JStr "slow down")]
             "[object Object]");
      reflexivity.
Defined.

Section RemoteInsight.

Variable E : Engine.
Variable random : Q.
Variable geminiApiKey cryptoName : string.
Variable st : Retrieval.Store.
Hypothesis key_present : truthy geminiApiKey = true.

Ltac run_insight :=
  unfold getCryptoInsight, Retrieval.bind, Retrieval.try_catch_finally,
    Retrieval.fetch, Retrieval.lift, Retrieval.throw, Retrieval.ret,
    Retrieval.setIsInsightLoading, Retrieval.setInsightError,
    Retrieval.setLlmInsight;
  cbn [Retrieval.cryptos Retrieval.loading Retrieval.error Retrieval.llmInsight
       Retrieval.isInsightLoading Retrieval.insightError Retrieval.sent];
  rewrite key_present; cbn [negb].

(** With a key, the outcome is a function of the parsed body alone. *)
Lemma remote_insight_by_body net response :
  net (insight_request geminiApiKey cryptoName) = Resolved response ->
  getCryptoInsight E net random geminiApiKey cryptoName st =
    getCryptoInsight E (answering (mkResponse 200 "OK" (json_body response)))
      random geminiApiKey cryptoName st.
Proof.
  intros Hnet. run_insight. unfold answering. rewrite Hnet. reflexivity.
Qed.

Lemma remote_insight_generic net response result :
  net (insight_request geminiApiKey cryptoName) = Resolved response ->
  json_body response = Normal result ->
  expected_structure E result = Normal false ->
  getCryptoInsight E net random geminiApiKey cryptoName st =
    (Normal tt,
     failed_insight geminiApiKey cryptoName generic_insight_failure st).
Proof.
  intros Hnet Hbody Hexp. run_insight. rewrite Hnet, Hbody, Hexp. reflexivity.
Qed.

Lemma remote_insight_throw net response result message :
  net (insight_request geminiApiKey cryptoName) = Resolved response ->
  json_body response = Normal result ->
  expected_structure E result = Throw message ->
  getCryptoInsight E net random geminiApiKey cryptoName st =
    (Normal tt,
     failed_insight geminiApiKey cryptoName
       ("Failed to get insight: " ++ message ++ ".") st).
Proof.
  intros Hnet Hbody Hexp. run_insight. rewrite Hnet, Hbody, Hexp. reflexivity.
Qed.

Lemma falsy_candidates result candidates :
  get E (Some result) (Named "candidates") = Normal candidates ->
  truthy_value candidates = false ->
  expected_structure E result = Normal false.
Proof.
  intros Hget Hfalsy. unfold expected_structure, get_path.
  cbn [fold_left cbind]. rewrite Hget. cbn [cbind]. now rewrite Hfalsy.
Qed.

Lemma empty_candidates members :
  member "candidates" members = Some (JArr []) ->
  expected_structure E (JObj members) = Normal false.
Proof.
  intros H. unfold expected_structure, get_path.
  cbn [fold_left cbind get key_text]. rewrite H. reflexivity.
Qed.

End RemoteInsight.

(** C9 (where the code departs from the claim).  With a key present, a body
    that lacks the expected structure and on which the test of lines 95-97
    reads a property of [null] does not end in the generic message: for
    the body [null] (here with status 500) the read of [candidates] throws,
    for the body [{"candidates":[null]}] the read of [content] does, and
    the handler of [catch] reports the message of the thrown error. *)
Theorem C9_null_reads_end_in_catch :
  getCryptoInsight sample_engine (answering null_body) (1#2) "k" "Bitcoin"
    Retrieval.initial
  = (Normal tt,
     failed_insight "k" "Bitcoin"
       "Failed to get insight: Cannot read properties of null (reading 'candidates')."
       Retrieval.initial)
  /\ getCryptoInsight sample_engine (answering null_candidate) (1#2) "k" "Bitcoin"
       Retrieval.initial
     = (Normal tt,
        failed_insight "k" "Bitcoin"
          "Failed to get insight: Cannot read properties of null (reading 'content')."
          Retrieval.initial)
  /\ Retrieval.insightError
       (snd (getCryptoInsight sample_engine (answering null_body) (1#2) "k" "Bitcoin"
               Retrieval.initial))
     <> Some generic_insight_failure
  /\ Retrieval.insightError
       (snd (getCryptoInsight sample_engine (answering null_candidate) (1#2) "k" "Bitcoin"
               Retrieval.initial))
     <> Some generic_insight_failure.
Proof. repeat split; try reflexivity; discriminate. Qed.

(* ================================================================== *)
(** * Further properties of the search *)
(* ================================================================== *)

Section SearchFurther.

Context {CM : CaseMapping}.

Lemma string_app_assoc (s t u : string) : (s ++ t) ++ u = s ++ t ++ u.
Proof. induction s as [|c s IH]; simpl; congruence. Qed.

Lemma includes_refl s : includes s s = true.
Proof.
  apply includes_iff. exists EmptyString, EmptyString. simpl.
  induction s as [|c s IH]; simpl; congruence.
Qed.

Lemma includes_trans s t u :
  includes s t = true -> includes t u = true -> includes s u = true.
Proof.
  rewrite !includes_iff.
  intros (p & q & ->) (p' & q' & ->).
  exists (p ++ p'), (q' ++ q). now rewrite !string_app_assoc.
Qed.

Lemma filter_filter_implied {A} (f g : A -> bool) (l : list A) :
  (forall a, f a = true -> g a = true) ->
  filter f (filter g l) = filter f l.
Proof.
  intros H. induction l as [|a l IH]; simpl; [reflexivity|].
  destruct (g a) eqn:Hg; simpl.
  - destruct (f a); congruence.
  - destruct (f a) eqn:Hf; [|exact IH].
    apply H in Hf. congruence.
Qed.

Lemma matches_narrow Q Q' a :
  includes (toLowerCase Q') (toLowerCase Q) = true ->
  matches (toLowerCase Q') a = true -> matches (toLowerCase Q) a = true.
Proof.
  intros H. unfold matches. rewrite !orb_true_iff.
  intros [Hn|Hs]; [left | right]; eapply includes_trans; eauto.
Qed.

Lemma in_firstn {A} (n : nat) (l : list A) (a : A) : In a (firstn n l) -> In a l.
Proof.
  intros H. rewrite <- (firstn_skipn n l). apply in_or_app. now left.
Qed.

Lemma suggestion_is_asset L Q a : In a (searchSuggestions L Q) -> In a L.
Proof.
  destruct Q as [|c Q]; [intros []|].
  rewrite searchSuggestions_nonempty by discriminate.
  intros H. apply in_firstn in H. apply filter_In in H. tauto.
Qed.

Lemma asset_matches_own_name L a :
  In a L -> In a (filteredCryptos L (name a)).
Proof.
  intros H. destruct (name a) as [|c n] eqn:Hn; [exact H|].
  rewrite filteredCryptos_nonempty by discriminate.
  apply filter_In. split; [exact H|].
  unfold matches. rewrite Hn, includes_refl. reflexivity.
Qed.

End SearchFurther.

(** Narrowing, for every engine: when the lower-cased query [Q'] contains
    the lower-cased query [Q] and [Q'] is not empty, filtering by [Q] and
    then by [Q'] gives what filtering by [Q'] alone gives, every asset
    found for [Q'] is found for [Q], and the count does not grow.  (On
    ASCII text the condition says that [Q'] contains [Q] up to case.  It is
    a condition on the lower-cased queries because lower-casing is not
    letter by letter: a query extended by a letter need not contain, once
    lower-cased, the lower-cased shorter query.) *)
Theorem filter_narrows_with_longer_query {CM : CaseMapping} :
  forall (L : list Asset) (Q Q' : string),
    Q' <> EmptyString ->
    includes (toLowerCase Q') (toLowerCase Q) = true ->
    filteredCryptos (filteredCryptos L Q) Q' = filteredCryptos L Q' /\
    incl (filteredCryptos L Q') (filteredCryptos L Q) /\
    (List.length (filteredCryptos L Q') <= List.length (filteredCryptos L Q))%nat.
Proof.
  intros L Q Q' Hne' H.
  assert (filteredCryptos (filteredCryptos L Q) Q' = filteredCryptos L Q') as Heq.
  { destruct Q as [|c Q]; [reflexivity|].
    rewrite (filteredCryptos_nonempty L (String c Q)) by discriminate.
    rewrite !(filteredCryptos_nonempty _ Q') by exact Hne'.
    apply filter_filter_implied. intros a. now apply matches_narrow. }
  split; [exact Heq|].
  rewrite <- Heq. rewrite (filteredCryptos_nonempty _ Q') by exact Hne'.
  split; [apply incl_filter | apply filter_length_le].
Qed.

Lemma filter_narrows_with_longer_query_witness :
  filteredCryptos (filteredCryptos [bitcoin; ethereum; bitcoin_cash] "BIT") "bitcoin c"
  = filteredCryptos [bitcoin; ethereum; bitcoin_cash] "bitcoin c".
Proof.
  apply (filter_narrows_with_longer_query [bitcoin; ethereum; bitcoin_cash]
           "BIT" "bitcoin c").
  - discriminate.
  - reflexivity.
Defined.

(* ================================================================== *)
(** * Further properties of the suggestion navigator *)
(* ================================================================== *)

Section NavigatorFurther.

Context {CM : CaseMapping}.

Local Open Scope Z_scope.

Lemma zero_ltb_length_false s : (0 <? String.length s)%nat = false -> s = EmptyString.
Proof. destruct s; [reflexivity | discriminate]. Qed.

Lemma zero_ltb_length_true s : (0 <? String.length s)%nat = true -> s <> EmptyString.
Proof. destruct s; discriminate. Qed.

(** What every event keeps: a shown panel has a non-empty query, and the
    cursor stays within [-1, 7]. *)
Lemma step_shown_query s e :
  (showSuggestions s = true -> searchTerm s <> EmptyString) ->
  showSuggestions (step s e) = true -> searchTerm (step s e) <> EmptyString.
Proof.
  destruct s as [cs q sh i]; simpl.
  destruct e as [v|k| | |n|n|d]; simpl; try tauto.
  - intros _. apply zero_ltb_length_true.
  - unfold handleKeyDown; simpl. destruct sh; simpl; [|tauto].
    destruct k; simpl; try tauto; try discriminate.
    destruct (i >=? 0); simpl; [|tauto].
    destruct (at_index _ _); simpl; [discriminate | tauto].
  - destruct (0 <? String.length q)%nat eqn:Hq; simpl; [|tauto].
    intros _ _. now apply zero_ltb_length_true.
  - unfold handleClickOutside. destruct (panel _); simpl; [tauto | discriminate].
  - destruct (nth_error _ n); simpl; tauto.
  - destruct (nth_error _ n); simpl; [discriminate | tauto].
Qed.

Lemma step_cursor_range s e :
  -1 <= selectedSuggestionIndex s <= 7 ->
  -1 <= selectedSuggestionIndex (step s e) <= 7.
Proof.
  destruct s as [cs q sh i]; simpl.
  destruct e as [v|k| | |n|n|d]; simpl; intros Hi; try lia.
  - unfold handleKeyDown, suggestions; simpl. destruct sh; simpl; [|exact Hi].
    pose proof (searchSuggestions_length cs q) as Hlen.
    destruct k; simpl; try exact Hi; try lia.
    + destruct (Z.ltb_spec i (Z.of_nat (List.length (searchSuggestions cs q)) - 1));
        lia.
    + destruct (Z.gtb_spec i 0); lia.
    + destruct (i >=? 0); simpl; [|exact Hi].
      destruct (at_index _ _); simpl; lia.
  - destruct (0 <? String.length q)%nat; simpl; exact Hi.
  - unfold handleClickOutside. destruct (panel _); simpl; lia.
  - destruct (nth_error _ n) eqn:En; simpl; [|exact Hi].
    apply panel_item in En. destruct En as [_ En].
    unfold suggestions in En; simpl in En.
    assert (nth_error (searchSuggestions cs q) n <> None) as Hn by congruence.
    apply nth_error_Some in Hn.
    pose proof (searchSuggestions_length cs q). lia.
  - destruct (nth_error _ n); simpl; lia.
Qed.

Lemma at_index_of_nat {A} (arr : list A) (n : nat) :
  at_index arr (Z.of_nat n) = nth_error arr n.
Proof.
  unfold at_index. destruct (Z.ltb_spec (Z.of_nat n) 0) as [H|_]; [lia|].
  now rewrite Nat2Z.id.
Qed.

Lemma confirm_on_suggestion s crypto :
  showSuggestions s = true ->
  at_index (suggestions s) (selectedSuggestionIndex s) = Some crypto ->
  step s confirm = mkState (cryptos s) (name crypto) false (-1).
Proof.
  intros Hsh H. pose proof (at_index_Some _ _ _ H) as Hr.
  cbn [step confirm]. unfold handleKeyDown. rewrite Hsh, H. cbn [negb].
  destruct (Z.geb_spec (selectedSuggestionIndex s) 0) as [_|Hneg]; [reflexivity | lia].
Qed.

Lemma hover_on_item s i crypto :
  nth_error (panel s) i = Some crypto ->
  step s (hover i) = setSelectedSuggestionIndex (Z.of_nat i) s.
Proof. intros H. cbn [step hover]. now rewrite H. Qed.

End NavigatorFurther.

(** In every reachable state - refreshes included - the cursor is between
    -1 and 7, the highest index a list of at most 8 suggestions can have. *)
Theorem cursor_always_between_minus_one_and_seven {CM : CaseMapping} :
  forall s : State,
    reachable s -> (-1 <= selectedSuggestionIndex s <= 7)%Z.
Proof.
  induction 1 as [|s e _ IH]; [simpl; lia|].
  now apply step_cursor_range.
Qed.

Lemma cursor_always_between_minus_one_and_seven_witness :
  (-1 <= selectedSuggestionIndex (run initial stale_cursor_trace) <= 7)%Z.
Proof.
  apply (cursor_always_between_minus_one_and_seven (run initial stale_cursor_trace)).
  apply reachable_run. constructor.
Defined.

(** In every reachable state the panel flag is on only over a non-empty
    query, and whenever it is off the cursor is -1: no handler hides the
    panel without resetting the cursor, and none moves the cursor while the
    panel is hidden. *)
Theorem panel_flag_and_cursor_agree {CM : CaseMapping} :
  forall s : State,
    reachable s ->
    (showSuggestions s = true -> searchTerm s <> EmptyString) /\
    (showSuggestions s = false -> selectedSuggestionIndex s = (-1)%Z).
Proof.
  induction 1 as [|s e _ [IH1 IH2]].
  - split; [discriminate | reflexivity].
  - split; [now apply step_shown_query | now apply step_hidden_idle].
Qed.

Lemma panel_flag_and_cursor_agree_witness :
  searchTerm (run initial [Refresh [bitcoin]; queryChanged "b"; moveDown; Focus])
    <> EmptyString.
Proof.
  apply (proj1 (panel_flag_and_cursor_agree
                  (run initial [Refresh [bitcoin]; queryChanged "b"; moveDown; Focus])
                  (reachable_run _ _ reachable_initial))).
  reflexivity.
Defined.

(** Pointer and keyboard agree: clicking the rendered item [i] has the
    effect of hovering over it and then pressing Enter. *)
Theorem click_is_hover_then_confirm {CM : CaseMapping} :
  forall (s : State) (i : nat) (crypto : Asset),
    nth_error (panel s) i = Some crypto ->
    step s (Click i) = step (step s (hover i)) confirm /\
    step s (Click i) = mkState (cryptos s) (name crypto) false (-1).
Proof.
  intros s i crypto H. pose proof (panel_item s i crypto H) as [Hsh Hs].
  assert (step s (Click i) = mkState (cryptos s) (name crypto) false (-1)) as Hc
      by (simpl; now rewrite H).
  split; [|exact Hc]. rewrite Hc, (hover_on_item s i crypto H).
  symmetry. apply (confirm_on_suggestion (setSelectedSuggestionIndex (Z.of_nat i) s)).
  - exact Hsh.
  - cbn [selectedSuggestionIndex setSelectedSuggestionIndex].
    rewrite at_index_of_nat. exact Hs.
Qed.

Lemma click_is_hover_then_confirm_witness :
  step (mkState [bitcoin; bitcoin_cash] "bit" true (-1)) (Click 1)
  = step (step (mkState [bitcoin; bitcoin_cash] "bit" true (-1)) (hover 1)) confirm.
Proof.
  apply (click_is_hover_then_confirm (mkState [bitcoin; bitcoin_cash] "bit" true (-1))
           1 bitcoin_cash).
  reflexivity.
Defined.

(** While the panel is shown the two arrow keys undo each other away from
    the ends: [moveDown] then [moveUp] restores every state whose cursor is
    below the last index, and [moveUp] then [moveDown] restores every state
    whose cursor is on a suggestion. *)
Theorem arrow_keys_undo_each_other {CM : CaseMapping} :
  forall s : State,
    showSuggestions s = true ->
    ((-1 <= selectedSuggestionIndex s < Z.of_nat (List.length (suggestions s)) - 1)%Z ->
     step (step s moveDown) moveUp = s) /\
    ((0 <= selectedSuggestionIndex s < Z.of_nat (List.length (suggestions s)))%Z ->
     step (step s moveUp) moveDown = s).
Proof.
  intros [cs q sh i] Hsh. simpl in Hsh. subst sh.
  unfold suggestions; simpl. unfold handleKeyDown, suggestions; simpl.
  set (len := Z.of_nat (List.length (searchSuggestions cs q))).
  split; intros Hi; unfold setSelectedSuggestionIndex; simpl; f_equal.
  - destruct (Z.ltb_spec i (len - 1)); [|lia].
    destruct (Z.gtb_spec (i + 1) 0); lia.
  - destruct (Z.gtb_spec i 0).
    + destruct (Z.ltb_spec (i - 1) (len - 1)); lia.
    + destruct (Z.ltb_spec (-1) (len - 1)); lia.
Qed.

Lemma arrow_keys_undo_each_other_witness :
  step (step (mkState [bitcoin; bitcoin_cash] "bit" true 0) moveDown) moveUp
  = mkState [bitcoin; bitcoin_cash] "bit" true 0
  /\ step (step (mkState [bitcoin; bitcoin_cash] "bit" true 0) moveUp) moveDown
     = mkState [bitcoin; bitcoin_cash] "bit" true 0.
Proof.
  split.
  - apply (proj1 (arrow_keys_undo_each_other
                    (mkState [bitcoin; bitcoin_cash] "bit" true 0) eq_refl)).
    simpl. lia.
  - apply (proj2 (arrow_keys_undo_each_other
                    (mkState [bitcoin; bitcoin_cash] "bit" true 0) eq_refl)).
    simpl. lia.
Defined.

(** A press outside the search surface acts like Escape exactly while the
    panel is rendered; with nothing rendered it changes nothing, so a panel
    flag that is on over a query without matches stays on. *)
Theorem press_outside_is_cancel_while_rendered {CM : CaseMapping} :
  forall s : State,
    (panel s <> [] -> step s MouseDownOutside = step s cancel) /\
    (panel s = [] -> step s MouseDownOutside = s).
Proof.
  intros s. simpl. unfold handleClickOutside, handleKeyDown.
  split; intros H.
  - destruct (panel s) as [|a l] eqn:Hp; [congruence|].
    assert (showSuggestions s = true) as ->; [|reflexivity].
    unfold panel in Hp. destruct (showSuggestions s); [reflexivity|].
    discriminate.
  - now rewrite H.
Qed.

Lemma press_outside_is_cancel_while_rendered_witness :
  step (mkState [bitcoin] "bit" true 0) MouseDownOutside
  = step (mkState [bitcoin] "bit" true 0) cancel
  /\ step (mkState [bitcoin] "zzz" true (-1)) MouseDownOutside
     = mkState [bitcoin] "zzz" true (-1).
Proof.
  split.
  - apply (proj1 (press_outside_is_cancel_while_rendered (mkState [bitcoin] "bit" true 0))).
    discriminate.
  - apply (proj2 (press_outside_is_cancel_while_rendered
                    (mkState [bitcoin] "zzz" true (-1)))).
    reflexivity.
Defined.

(** A selected suggestion stays in view: after a click on a rendered item,
    or Enter on the suggestion under the cursor of a shown panel, the
    filtered list for the new query contains the selected asset. *)
Theorem selected_asset_stays_in_filtered_list {CM : CaseMapping} :
  forall (s : State) (crypto : Asset),
    (forall i : nat,
        nth_error (panel s) i = Some crypto ->
        In crypto (filteredCryptos (cryptos (step s (Click i)))
                                   (searchTerm (step s (Click i))))) /\
    (showSuggestions s = true ->
     at_index (suggestions s) (selectedSuggestionIndex s) = Some crypto ->
     In crypto (filteredCryptos (cryptos (step s confirm))
                                (searchTerm (step s confirm)))).
Proof.
  intros s crypto. split.
  - intros i H. pose proof (panel_item s i crypto H) as [_ Hs].
    simpl. rewrite H. simpl.
    apply asset_matches_own_name.
    apply nth_error_In in Hs. now apply suggestion_is_asset in Hs.
  - intros Hsh H. rewrite (confirm_on_suggestion s crypto Hsh H).
    cbn [cryptos searchTerm]. apply asset_matches_own_name.
    unfold at_index in H. destruct (selectedSuggestionIndex s <? 0)%Z; [discriminate|].
    apply nth_error_In in H. now apply suggestion_is_asset in H.
Qed.

Lemma selected_asset_stays_in_filtered_list_witness :
  In bitcoin_cash
     (filteredCryptos
        (cryptos (step (mkState [bitcoin; bitcoin_cash] "bit" true 1) confirm))
        (searchTerm (step (mkState [bitcoin; bitcoin_cash] "bit" true 1) confirm))).
Proof.
  apply (proj2 (selected_asset_stays_in_filtered_list
                  (mkState [bitcoin; bitcoin_cash] "bit" true 1) bitcoin_cash));
    reflexivity.
Defined.

(** Typing a query, pressing ArrowDown [k+1] times and then Enter selects
    suggestion number [min k (len-1)] of the new query: the query becomes
    its name, the panel closes and the cursor is reset. *)
Theorem type_arrows_enter_selects {CM : CaseMapping} :
  forall (s : State) (value : string) (k : nat) (crypto : Asset),
    value <> EmptyString ->
    nth_error (searchSuggestions (cryptos s) value)
              (Nat.min k (List.length (searchSuggestions (cryptos s) value) - 1))
      = Some crypto ->
    run s (queryChanged value :: repeat moveDown (S k) ++ [confirm])%list
    = mkState (cryptos s) (name crypto) false (-1).
Proof.
  intros s value k crypto Hv Hc.
  set (sug := searchSuggestions (cryptos s) value) in *.
  assert (List.length sug <> 0%nat) as Hlen
      by (destruct sug; [destruct (Nat.min k _); discriminate | discriminate]).
  rewrite run_cons, run_app.
  assert (step s (queryChanged value) = mkState (cryptos s) value true (-1)) as ->.
  { simpl. unfold handleSearchChange, setSelectedSuggestionIndex,
      setShowSuggestions, setSearchTerm. simpl.
    destruct value; [congruence | reflexivity]. }
  rewrite run_moveDown_shown;
    [|reflexivity
     |unfold suggestions; cbn [cryptos searchTerm selectedSuggestionIndex];
      fold sug; lia].
  unfold run. cbn [fold_left].
  erewrite (confirm_on_suggestion _ crypto); [reflexivity | reflexivity |].
  unfold suggestions, setSelectedSuggestionIndex.
  cbn [cryptos searchTerm selectedSuggestionIndex showSuggestions]. fold sug.
  replace (Z.min (-1 + Z.of_nat (S k)) (Z.of_nat (List.length sug) - 1))
    with (Z.of_nat (Nat.min k (List.length sug - 1))) by lia.
  rewrite at_index_of_nat. exact Hc.
Qed.

Lemma type_arrows_enter_selects_witness :
  run initial
      (Refresh [bitcoin; ethereum; bitcoin_cash]
         :: queryChanged "bit" :: repeat moveDown 5 ++ [confirm])%list
  = mkState [bitcoin; ethereum; bitcoin_cash] "Bitcoin Cash" false (-1).
Proof.
  apply (type_arrows_enter_selects
           (step initial (Refresh [bitcoin; ethereum; bitcoin_cash]))
           "bit" 4 bitcoin_cash).
  - discriminate.
  - reflexivity.
Defined.

(* ================================================================== *)
(** * Further properties of the two retrieval functions *)
(* ================================================================== *)

Section RetrievalFurther.

Variable E : Engine.
Variable net : Network.

Ltac unfold_retrieval :=
  unfold fetchCryptoData, getCryptoInsight, Retrieval.bind,
    Retrieval.try_catch_finally, Retrieval.fetch, Retrieval.lift,
    Retrieval.throw, Retrieval.ret, Retrieval.setLoading, Retrieval.setError,
    Retrieval.setCryptos, Retrieval.setIsInsightLoading,
    Retrieval.setInsightError, Retrieval.setLlmInsight;
  cbn [Retrieval.cryptos Retrieval.loading Retrieval.error Retrieval.llmInsight
       Retrieval.isInsightLoading Retrieval.insightError Retrieval.sent].

Lemma load_failure_truthy message : truthy (load_failure message) = true.
Proof. reflexivity. Qed.

Lemma insight_failure_truthy message :
  truthy ("Failed to get insight: " ++ message ++ ".") = true.
Proof. reflexivity. Qed.

(** Every run of [fetchCryptoData] ends in [loaded] or in [failed_load]. *)
Lemma fetchCryptoData_outcomes apiKey st :
  (exists response data,
      net (market_request apiKey) = Resolved response /\
      ok response = true /\ json_body response = Normal data /\
      fetchCryptoData E net apiKey st = (Normal tt, loaded apiKey data st)) \/
  (exists message,
      fetchCryptoData E net apiKey st = (Normal tt, failed_load apiKey message st)).
Proof.
  unfold_retrieval. fold (market_request apiKey).
  destruct (net (market_request apiKey)) as [m|response] eqn:Hnet.
  - right. exists m. reflexivity.
  - destruct (ok response) eqn:Hok; cbn [negb].
    + destruct (json_body response) as [data|m] eqn:Hbody.
      * left. exists response, data. auto.
      * right. exists m. reflexivity.
    + right.
      destruct (ccatch (json_body response) _) as [errorData|m].
      * destruct (cbind (error_detail E errorData) (to_string E)) as [detail|m].
        -- exists (http_error_message response detail). reflexivity.
        -- exists m. reflexivity.
      * exists m. reflexivity.
Qed.

(** Every run of [getCryptoInsight] ends with an insight or with an error
    message. *)
Lemma getCryptoInsight_outcomes random geminiApiKey cryptoName st :
  (exists text,
      getCryptoInsight E net random geminiApiKey cryptoName st =
        (Normal tt,
         if truthy geminiApiKey
         then remote_insight geminiApiKey cryptoName (Insight.mk cryptoName text) st
         else local_insight (Insight.mk cryptoName text) st)) \/
  (exists message,
      truthy geminiApiKey = true /\ truthy message = true /\
      getCryptoInsight E net random geminiApiKey cryptoName st =
        (Normal tt, failed_insight geminiApiKey cryptoName message st)).
Proof.
  unfold_retrieval.
  destruct (truthy geminiApiKey) eqn:Hkey; cbn [negb].
  - destruct (net (insight_request geminiApiKey cryptoName)) as [m|response].
    + right. exists ("Failed to get insight: " ++ m ++ "."). auto.
    + destruct (json_body response) as [result|m].
      * destruct (expected_structure E result) as [[|]|m].
        -- destruct (get_path E (Some result) _) as [text|m].
           ++ left. exists text. reflexivity.
           ++ right. exists ("Failed to get insight: " ++ m ++ "."). auto.
        -- right. exists generic_insight_failure. auto.
        -- right. exists ("Failed to get insight: " ++ m ++ "."). auto.
      * right. exists ("Failed to get insight: " ++ m ++ "."). auto.
  - left. eexists. reflexivity.
Qed.

Lemma positive_length_gt_zero n :
  gt_zero E (Some (JNum (inject_Z (Z.of_nat (S n))))) = Normal true.
Proof.
  reflexivity.
Qed.

End RetrievalFurther.

(** When the request itself is rejected (no connection), the load fails
    with the message of the rejection, and the asset list is kept. *)
Theorem fetchCryptoData_rejected :
  forall (E : Engine) (net : Network) (apiKey : string) (st : Retrieval.Store)
         (message : string),
    net (market_request apiKey) = Rejected message ->
    fetchCryptoData E net apiKey st = (Normal tt, failed_load apiKey message st) /\
    Retrieval.error (failed_load apiKey message st) =
      Some ("Failed to load cryptocurrency data: " ++ message
              ++ ". Please check your API key or try again later.").
Proof.
  intros E net apiKey st message Hnet. split; [|reflexivity].
  unfold fetchCryptoData, Retrieval.bind, Retrieval.try_catch_finally,
    Retrieval.fetch, Retrieval.setLoading, Retrieval.setError.
  cbn [Retrieval.cryptos Retrieval.loading Retrieval.error Retrieval.llmInsight
       Retrieval.isInsightLoading Retrieval.insightError Retrieval.sent].
  fold (market_request apiKey). rewrite Hnet. reflexivity.
Qed.

Lemma fetchCryptoData_rejected_witness :
  fetchCryptoData sample_engine (fun _ => Rejected "Failed to fetch") "demo"
    Retrieval.initial
  = (Normal tt, failed_load "demo" "Failed to fetch" Retrieval.initial).
Proof.
  apply (fetchCryptoData_rejected sample_engine (fun _ => Rejected "Failed to fetch")
           "demo" Retrieval.initial "Failed to fetch").
  reflexivity.
Defined.

(** An error answer whose body is the JSON value [null] is not reported
    with its status: reading [errorData.error] throws, and the load fails
    with the engine's message for that read. *)
Theorem fetchCryptoData_null_error_body :
  forall (E : Engine) (net : Network) (apiKey : string) (st : Retrieval.Store)
         (response : Response),
    net (market_request apiKey) = Resolved response ->
    ok response = false ->
    json_body response = Normal JNull ->
    fetchCryptoData E net apiKey st =
      (Normal tt,
       failed_load apiKey (nullish_read_message E (Some JNull) "error") st).
Proof.
  intros E net apiKey st response Hnet Hok Hbody.
  unfold fetchCryptoData, Retrieval.bind, Retrieval.try_catch_finally,
    Retrieval.fetch, Retrieval.lift, Retrieval.throw, Retrieval.ret,
    Retrieval.setLoading, Retrieval.setError, Retrieval.setCryptos.
  cbn [Retrieval.cryptos Retrieval.loading Retrieval.error Retrieval.llmInsight
       Retrieval.isInsightLoading Retrieval.insightError Retrieval.sent].
  fold (market_request apiKey). rewrite Hnet, Hok, Hbody. reflexivity.
Qed.

Lemma fetchCryptoData_null_error_body_witness :
  fetchCryptoData sample_engine (answering null_body) "demo" Retrieval.initial
  = (Normal tt,
     failed_load "demo" "Cannot read properties of null (reading 'error')"
       Retrieval.initial).
Proof.
  apply (fetchCryptoData_null_error_body sample_engine (answering null_body) "demo"
           Retrieval.initial null_body);
    reflexivity.
Defined.

(** With a key present, a rejected request and a body that is not JSON both
    end in "Failed to get insight: <message>." with the message of the
    rejection or of the parser, and no insight. *)
Theorem getCryptoInsight_transport_and_parse_errors :
  forall (E : Engine) (net : Network) (random : Q)
         (geminiApiKey cryptoName : string) (st : Retrieval.Store) (message : string),
    truthy geminiApiKey = true ->
    (net (insight_request geminiApiKey cryptoName) = Rejected message \/
     exists response,
       net (insight_request geminiApiKey cryptoName) = Resolved response /\
       json_body response = Throw message) ->
    getCryptoInsight E net random geminiApiKey cryptoName st =
      (Normal tt,
       failed_insight geminiApiKey cryptoName
         ("Failed to get insight: " ++ message ++ ".") st).
Proof.
  intros E net random geminiApiKey cryptoName st message Hkey H.
  unfold getCryptoInsight, Retrieval.bind, Retrieval.try_catch_finally,
    Retrieval.fetch, Retrieval.lift, Retrieval.setIsInsightLoading,
    Retrieval.setInsightError, Retrieval.setLlmInsight.
  cbn [Retrieval.cryptos Retrieval.loading Retrieval.error Retrieval.llmInsight
       Retrieval.isInsightLoading Retrieval.insightError Retrieval.sent].
  rewrite Hkey. cbn [negb].
  destruct H as [Hnet|(response & Hnet & Hbody)]; rewrite Hnet.
  - reflexivity.
  - rewrite Hbody. reflexivity.
Qed.

Lemma getCryptoInsight_transport_and_parse_errors_witness :
  getCryptoInsight sample_engine (answering html_instead_of_json) (1#2) "k" "Bitcoin"
    Retrieval.initial
  = (Normal tt,
     failed_insight "k" "Bitcoin"
       "Failed to get insight: Unexpected token '<', is not valid JSON."
       Retrieval.initial).
Proof.
  apply (getCryptoInsight_transport_and_parse_errors sample_engine
           (answering html_instead_of_json) (1#2) "k" "Bitcoin" Retrieval.initial
           "Unexpected token '<', is not valid JSON").
  - reflexivity.
  - right. exists html_instead_of_json. split; reflexivity.
Defined.

(** With a key present and a body of the expected shape, the insight shown
    is the [text] member of the first part of the first candidate,
    whatever the status; further candidates and parts are ignored, and a
    first part without a [text] member gives an insight whose text is
    [undefined]. *)
Theorem getCryptoInsight_takes_first_part_of_first_candidate :
  forall (E : Engine) (net : Network) (random : Q)
         (geminiApiKey cryptoName : string) (st : Retrieval.Store)
         (response : Response)
         (members candidate content part : list (string * json))
         (more_candidates more_parts : list json),
    truthy geminiApiKey = true ->
    net (insight_request geminiApiKey cryptoName) = Resolved response ->
    json_body response = Normal (JObj members) ->
    member "candidates" members = Some (JArr (JObj candidate :: more_candidates)) ->
    member "content" candidate = Some (JObj content) ->
    member "parts" content = Some (JArr (JObj part :: more_parts)) ->
    getCryptoInsight E net random geminiApiKey cryptoName st =
      (Normal tt,
       remote_insight geminiApiKey cryptoName
         (Insight.mk cryptoName (member "text" part)) st).
Proof.
  intros E net random geminiApiKey cryptoName st response members candidate content
         part more_candidates more_parts Hkey Hnet Hbody Hcand Hcontent Hparts.
  unfold getCryptoInsight, Retrieval.bind, Retrieval.try_catch_finally,
    Retrieval.fetch, Retrieval.lift, Retrieval.setIsInsightLoading,
    Retrieval.setInsightError, Retrieval.setLlmInsight.
  cbn [Retrieval.cryptos Retrieval.loading Retrieval.error Retrieval.llmInsight
       Retrieval.isInsightLoading Retrieval.insightError Retrieval.sent].
  rewrite Hkey, Hnet, Hbody. cbn [negb].
  assert (expected_structure E (JObj members) = Normal true) as ->.
  { unfold expected_structure, get_path.
    cbn [fold_left cbind get key_text]. rewrite Hcand.
    cbn [truthy_value negb cbind get key_text String.eqb Ascii.eqb Bool.eqb
         List.length nth_error].
    rewrite positive_length_gt_zero. cbn [negb cbind]. rewrite Hcontent.
    cbn [truthy_value negb cbind get key_text]. rewrite Hparts.
    cbn [truthy_value negb cbind get key_text String.eqb Ascii.eqb Bool.eqb
         List.length].
    apply positive_length_gt_zero. }
  unfold get_path. cbn [fold_left cbind get key_text]. rewrite Hcand.
  cbn [cbind get key_text nth_error]. rewrite Hcontent.
  cbn [cbind get key_text]. rewrite Hparts.
  cbn [cbind get key_text nth_error]. reflexivity.
Qed.

Lemma getCryptoInsight_takes_first_part_of_first_candidate_witness :
  getCryptoInsight sample_engine (answering (generated "Bitcoin is up.")) (1#2)
    "k" "Bitcoin" Retrieval.initial
  = (Normal tt,
     remote_insight "k" "Bitcoin" (Insight.mk "Bitcoin" (Some (JStr "Bitcoin is up.")))
       Retrieval.initial).
Proof.
  apply (getCryptoInsight_takes_first_part_of_first_candidate sample_engine
           (answering (generated "Bitcoin is up.")) (1#2) "k" "Bitcoin"
           Retrieval.initial (generated "Bitcoin is up.")
           [("candidates",
             JArr [JObj [("content",
                          JObj [("parts", JArr [JObj [("text", JStr "Bitcoin is up.")]]);
                                ("role", JStr "model")])]])]
           [("content",
             JObj [("parts", JArr [JObj [("text", JStr "Bitcoin is up.")]]);
                   ("role", JStr "model")])]
           [("parts", JArr [JObj [("text", JStr "Bitcoin is up.")]]);
            ("role", JStr "model")]
           [("text", JStr "Bitcoin is up.")] [] []);
    reflexivity.
Defined.

(* ================================================================== *)
(** * The two keys and their persistence *)
(* ================================================================== *)

Section CredentialFacts.

Import Credentials.

Lemma getItem_removeItem_same key storage :
  getItem key (removeItem key storage) = None.
Proof.
  induction storage as [|[k v] rest IH]; simpl; [reflexivity|].
  destruct (String.eqb k key) eqn:Hk; simpl; [exact IH|].
  now rewrite Hk.
Qed.

Lemma getItem_removeItem_other key key' storage :
  key' <> key -> getItem key' (removeItem key storage) = getItem key' storage.
Proof.
  intros Hne. induction storage as [|[k v] rest IH]; simpl; [reflexivity|].
  destruct (String.eqb k key) eqn:Hk; simpl.
  - apply String.eqb_eq in Hk. subst k.
    destruct (String.eqb key key') eqn:Hk'; [|exact IH].
    apply String.eqb_eq in Hk'. congruence.
  - now rewrite IH.
Qed.

Lemma getItem_setItem_same key value storage :
  getItem key (setItem key value storage) = Some value.
Proof. unfold setItem. simpl. now rewrite String.eqb_refl. Qed.

Lemma getItem_setItem_other key key' value storage :
  key' <> key -> getItem key' (setItem key value storage) = getItem key' storage.
Proof.
  intros Hne. unfold setItem. simpl.
  destruct (String.eqb key key') eqn:Hk.
  - apply String.eqb_eq in Hk. congruence.
  - now apply getItem_removeItem_other.
Qed.

Lemma removeItem_idempotent key storage :
  removeItem key (removeItem key storage) = removeItem key storage.
Proof.
  unfold removeItem. induction storage as [|[k v] rest IH]; simpl; [reflexivity|].
  destruct (String.eqb k key) eqn:Hk; simpl; [exact IH|].
  rewrite Hk. simpl. now rewrite IH.
Qed.

Lemma removeItem_comm key key' storage :
  removeItem key (removeItem key' storage) = removeItem key' (removeItem key storage).
Proof.
  unfold removeItem. induction storage as [|[k v] rest IH]; simpl; [reflexivity|].
  destruct (String.eqb k key) eqn:Hk, (String.eqb k key') eqn:Hk'; simpl;
    rewrite ?Hk, ?Hk'; simpl; now rewrite ?IH.
Qed.

Lemma stored_after_setItem key value storage :
  stored_or_empty key (setItem key value storage) = value.
Proof.
  unfold stored_or_empty. rewrite getItem_setItem_same.
  now destruct value.
Qed.

Lemma stored_after_setItem_other key key' value storage :
  key' <> key ->
  stored_or_empty key' (setItem key value storage) = stored_or_empty key' storage.
Proof.
  intros H. unfold stored_or_empty. now rewrite getItem_setItem_other.
Qed.

Lemma mount_in_sync storage : in_sync (mount storage).
Proof. split; reflexivity. Qed.

Lemma step_in_sync s e : in_sync s -> in_sync (step s e).
Proof.
  intros [Ha Hg]. unfold in_sync.
  destruct e as [|v|v|]; simpl.
  - auto.
  - destruct (key_fields s); [|auto]. simpl. split.
    + apply stored_after_setItem.
    + rewrite stored_after_setItem_other by discriminate. exact Hg.
  - destruct (key_fields s); [|auto]. simpl. split.
    + rewrite stored_after_setItem_other by discriminate. exact Ha.
    + apply stored_after_setItem.
  - destruct (header_clear_button s || block_clear_button s); [|auto].
    simpl. unfold stored_or_empty. split.
    + rewrite getItem_removeItem_other by discriminate.
      now rewrite getItem_removeItem_same.
    + now rewrite getItem_removeItem_same.
Qed.

Lemma reachable_in_sync s : reachable s -> in_sync s.
Proof.
  induction 1; [apply mount_in_sync | now apply step_in_sync].
Qed.

Lemma settings_reachable_run s events : reachable s -> reachable (run s events).
Proof.
  revert s. induction events as [|e events IH]; intros s H; simpl; [exact H|].
  apply IH. now constructor.
Qed.

End CredentialFacts.

Example keys_survive_a_reload :
  Credentials.mount
    (Credentials.localStorage
       (Credentials.run (Credentials.mount [])
          [Credentials.Toggle; Credentials.ChangeApiKey "CG-1";
           Credentials.ChangeGeminiApiKey "g"]))
  = Credentials.mkSettings "CG-1" "g" false
      [("coinledger_geminiApiKey", "g"); ("coinledger_apiKey", "CG-1")].
Proof. reflexivity. Qed.

(** The keys survive a reload: in every state of a session - mounted over
    any storage, then any edits, toggles and clearings - mounting again
    over the current storage gives back the two keys the hooks hold. *)
Theorem keys_are_restored_on_remount :
  forall s : Credentials.Settings,
    Credentials.reachable s ->
    Credentials.apiKey (Credentials.mount (Credentials.localStorage s))
      = Credentials.apiKey s /\
    Credentials.geminiApiKey (Credentials.mount (Credentials.localStorage s))
      = Credentials.geminiApiKey s.
Proof.
  intros s H. exact (reachable_in_sync s H).
Qed.

Lemma keys_are_restored_on_remount_witness :
  Credentials.apiKey
    (Credentials.mount
       (Credentials.localStorage
          (Credentials.run (Credentials.mount [("coinledger_apiKey", "old")])
             [Credentials.Toggle; Credentials.ChangeApiKey "CG-1"])))
  = Credentials.apiKey
      (Credentials.run (Credentials.mount [("coinledger_apiKey", "old")])
         [Credentials.Toggle; Credentials.ChangeApiKey "CG-1"]).
Proof.
  apply (keys_are_restored_on_remount
           (Credentials.run (Credentials.mount [("coinledger_apiKey", "old")])
              [Credentials.Toggle; Credentials.ChangeApiKey "CG-1"])).
  apply settings_reachable_run. constructor.
Defined.

(** [clearAllApiKeys] empties both key hooks, removes both entries from the
    storage, closes the key fields, leaves every other entry of the storage
    as it is, and doing it twice is doing it once. *)
Theorem clearAllApiKeys_clears_both_and_is_idempotent :
  forall s : Credentials.Settings,
    let c := Credentials.clearAllApiKeys s in
    Credentials.apiKey c = EmptyString /\
    Credentials.geminiApiKey c = EmptyString /\
    Credentials.showApiKeyInput c = false /\
    Credentials.getItem "coinledger_apiKey" (Credentials.localStorage c) = None /\
    Credentials.getItem "coinledger_geminiApiKey" (Credentials.localStorage c) = None /\
    (forall key,
        key <> "coinledger_apiKey" -> key <> "coinledger_geminiApiKey" ->
        Credentials.getItem key (Credentials.localStorage c)
          = Credentials.getItem key (Credentials.localStorage s)) /\
    Credentials.clearAllApiKeys c = c.
Proof.
  intros s c. subst c.
  unfold Credentials.clearAllApiKeys, Credentials.setShowApiKeyInput,
    Credentials.setGeminiApiKey, Credentials.setApiKey.
  cbn [Credentials.apiKey Credentials.geminiApiKey Credentials.showApiKeyInput
       Credentials.localStorage].
  repeat split.
  - rewrite getItem_removeItem_other by discriminate.
    apply getItem_removeItem_same.
  - apply getItem_removeItem_same.
  - intros key H1 H2. now rewrite !getItem_removeItem_other.
  - f_equal.
    rewrite (removeItem_comm "coinledger_apiKey" "coinledger_geminiApiKey"
               (Credentials.removeItem "coinledger_apiKey" (Credentials.localStorage s))).
    now rewrite !removeItem_idempotent.
Qed.

Lemma clearAllApiKeys_clears_both_and_is_idempotent_witness :
  Credentials.getItem "theme"
    (Credentials.localStorage
       (Credentials.clearAllApiKeys
          (Credentials.mkSettings "CG-1" "g" true
             [("coinledger_apiKey", "CG-1"); ("theme", "dark");
              ("coinledger_geminiApiKey", "g")])))
  = Credentials.getItem "theme"
      (Credentials.localStorage
         (Credentials.mkSettings "CG-1" "g" true
            [("coinledger_apiKey", "CG-1"); ("theme", "dark");
             ("coinledger_geminiApiKey", "g")])).
Proof.
  apply (clearAllApiKeys_clears_both_and_is_idempotent
           (Credentials.mkSettings "CG-1" "g" true
              [("coinledger_apiKey", "CG-1"); ("theme", "dark");
               ("coinledger_geminiApiKey", "g")]));
    discriminate.
Defined.

(** The settings never touch a storage entry other than their two: every
    event leaves the entry under any other key as it is. *)
Theorem other_storage_entries_are_untouched :
  forall (s : Credentials.Settings) (events : list Credentials.Event) (key : string),
    key <> "coinledger_apiKey" -> key <> "coinledger_geminiApiKey" ->
    Credentials.getItem key (Credentials.localStorage (Credentials.run s events))
      = Credentials.getItem key (Credentials.localStorage s).
Proof.
  intros s events key H1 H2. revert s.
  induction events as [|e events IH]; intros s; simpl; [reflexivity|].
  fold (Credentials.run (Credentials.step s e) events). rewrite IH.
  destruct e as [|v|v|]; cbn [Credentials.step].
  - reflexivity.
  - destruct (Credentials.key_fields s); [|reflexivity].
    unfold Credentials.saveApiKey. cbn [Credentials.localStorage Credentials.setApiKey].
    apply getItem_setItem_other. exact H1.
  - destruct (Credentials.key_fields s); [|reflexivity].
    unfold Credentials.saveApiKey.
    cbn [Credentials.localStorage Credentials.setGeminiApiKey].
    apply getItem_setItem_other. exact H2.
  - destruct (_ || _); [|reflexivity].
    unfold Credentials.clearAllApiKeys, Credentials.setShowApiKeyInput,
      Credentials.setGeminiApiKey, Credentials.setApiKey.
    cbn [Credentials.localStorage]. now rewrite !getItem_removeItem_other.
Qed.

Lemma other_storage_entries_are_untouched_witness :
  Credentials.getItem "theme"
    (Credentials.localStorage
       (Credentials.run (Credentials.mount [("theme", "dark")])
          [Credentials.Toggle; Credentials.ChangeApiKey "CG-1"; Credentials.ClearAll]))
  = Credentials.getItem "theme" (Credentials.localStorage (Credentials.mount [("theme", "dark")])).
Proof.
  apply (other_storage_entries_are_untouched (Credentials.mount [("theme", "dark")])
           [Credentials.Toggle; Credentials.ChangeApiKey "CG-1"; Credentials.ClearAll]
           "theme");
    discriminate.
Defined.

(** Once both keys are set they can only be cleared: the key fields are not
    rendered whatever the toggle says, the header shows its clear button
    and not the one of the fields, and every event other than clearing
    leaves both keys and the storage as they are. *)
Theorem keys_are_locked_once_both_are_set :
  forall s : Credentials.Settings,
    truthy (Credentials.apiKey s) = true ->
    truthy (Credentials.geminiApiKey s) = true ->
    Credentials.key_fields s = false /\
    Credentials.header_clear_button s = true /\
    Credentials.block_clear_button s = false /\
    (forall e : Credentials.Event,
        e <> Credentials.ClearAll ->
        Credentials.apiKey (Credentials.step s e) = Credentials.apiKey s /\
        Credentials.geminiApiKey (Credentials.step s e) = Credentials.geminiApiKey s /\
        Credentials.localStorage (Credentials.step s e) = Credentials.localStorage s).
Proof.
  intros s Ha Hg.
  assert (Credentials.key_fields s = false) as Hf.
  { unfold Credentials.key_fields. rewrite Ha, Hg. apply andb_false_r. }
  unfold Credentials.header_clear_button, Credentials.block_clear_button.
  rewrite Hf, Ha, Hg. repeat split;
    destruct e as [|v|v|]; simpl; rewrite ?Hf; try reflexivity; congruence.
Qed.

Lemma keys_are_locked_once_both_are_set_witness :
  Credentials.key_fields (Credentials.mkSettings "CG-1" "g" true []) = false.
Proof.
  apply (keys_are_locked_once_both_are_set (Credentials.mkSettings "CG-1" "g" true []));
    reflexivity.
Defined.

(** Completing the pair closes the fields at the first character: with one
    key set and the fields rendered, an edit that makes the other key
    non-empty leaves the fields no longer rendered; and the two clear
    buttons are never rendered together. *)
Theorem completing_the_keys_closes_the_fields :
  forall (s : Credentials.Settings) (value : string),
    Credentials.key_fields s = true ->
    value <> EmptyString ->
    (truthy (Credentials.apiKey s) = true ->
     Credentials.key_fields (Credentials.step s (Credentials.ChangeGeminiApiKey value))
       = false) /\
    (truthy (Credentials.geminiApiKey s) = true ->
     Credentials.key_fields (Credentials.step s (Credentials.ChangeApiKey value))
       = false) /\
    Credentials.header_clear_button s && Credentials.block_clear_button s = false.
Proof.
  intros s value Hf Hv.
  assert (truthy value = true) as Ht by (destruct value; [congruence | reflexivity]).
  repeat split.
  - intros Ha. simpl. rewrite Hf. unfold Credentials.key_fields. simpl.
    rewrite Ha, Ht. apply andb_false_r.
  - intros Hg. simpl. rewrite Hf. unfold Credentials.key_fields. simpl.
    rewrite Hg, Ht. apply andb_false_r.
  - unfold Credentials.header_clear_button, Credentials.block_clear_button,
      Credentials.key_fields.
    destruct (truthy (Credentials.apiKey s)), (truthy (Credentials.geminiApiKey s)),
      (Credentials.showApiKeyInput s); reflexivity.
Qed.

Lemma completing_the_keys_closes_the_fields_witness :
  Credentials.key_fields
    (Credentials.step (Credentials.mkSettings "CG-1" EmptyString true [])
       (Credentials.ChangeGeminiApiKey "g"))
  = false.
Proof.
  refine (proj1 (completing_the_keys_closes_the_fields
                   (Credentials.mkSettings "CG-1" EmptyString true []) "g" _ _) _).
  - reflexivity.
  - discriminate.
  - reflexivity.
Defined.

(* ================================================================== *)
(** * The refresh timer *)
(* ================================================================== *)

Section SchedulerFacts.

Import Scheduler.

Lemma mount_well_formed key : well_formed (mount key).
Proof. unfold well_formed. simpl. exists 1%nat. split; [reflexivity | lia]. Qed.

Lemma step_well_formed d e : well_formed d -> well_formed (step d e).
Proof.
  unfold well_formed. destruct d as [m k i n cs]. simpl.
  destruct m; simpl.
  - intros (iid & -> & Hlt). destruct e as [v| |]; simpl.
    + destruct (String.eqb v k); simpl.
      * exists iid. auto.
      * exists n. split; [reflexivity | lia].
    + exists iid. auto.
    + reflexivity.
  - intros ->. destruct e; reflexivity.
Qed.

Lemma reachable_well_formed d : reachable d -> well_formed d.
Proof.
  induction 1; [apply mount_well_formed | now apply step_well_formed].
Qed.




End SchedulerFacts.

Example refresh_calls_of_a_session :
  Scheduler.calls
    (Scheduler.run (Scheduler.mount EmptyString)
       [Scheduler.Tick; Scheduler.SetApiKey "CG-1"; Scheduler.Tick; Scheduler.Unmount;
        Scheduler.Tick])
  = [ Scheduler.FetchCryptoData EmptyString; Scheduler.SetInterval 1;
      Scheduler.FetchCryptoData EmptyString;
      Scheduler.ClearInterval 1; Scheduler.FetchCryptoData "CG-1"; Scheduler.SetInterval 2;
      Scheduler.FetchCryptoData "CG-1";
      Scheduler.ClearInterval 2 ].
Proof. reflexivity. Qed.



(** Changing the market-data key while mounted restarts the refresh: the
    running interval is cleared once, one fetch with the new key follows
    at once, and one new interval is set, in this order and with nothing
    else; setting the key to the value it has does nothing. *)
Theorem key_change_restarts_the_refresh :
  forall (d : Scheduler.Dashboard) (value : string),
    Scheduler.reachable d ->
    Scheduler.mounted d = true ->
    (value <> Scheduler.apiKey d ->
     exists intervalId,
       Scheduler.interval d = Some (intervalId, Scheduler.apiKey d) /\
       Scheduler.step d (Scheduler.SetApiKey value) =
         Scheduler.mkDashboard true value
           (Some (Scheduler.nextId d, value)) (S (Scheduler.nextId d))
           (Scheduler.calls d ++
            [Scheduler.ClearInterval intervalId;
             Scheduler.FetchCryptoData value;
             Scheduler.SetInterval (Scheduler.nextId d)])%list) /\
    Scheduler.step d (Scheduler.SetApiKey (Scheduler.apiKey d)) = d.
Proof.
  intros d value Hr Hm. pose proof (reachable_well_formed d Hr) as Hwf.
  unfold Scheduler.well_formed in Hwf. rewrite Hm in Hwf.
  destruct Hwf as (iid & Hi & _). split.
  - intros Hne. exists iid. split; [exact Hi|].
    apply String.eqb_neq in Hne.
    simpl. rewrite Hm, Hne. simpl.
    unfold Scheduler.cleanup, Scheduler.effect. rewrite Hi. simpl.
    rewrite Hm. now rewrite <- app_assoc.
  - simpl. now rewrite Hm, String.eqb_refl.
Qed.

Lemma key_change_restarts_the_refresh_witness :
  Scheduler.step (Scheduler.mount "old") (Scheduler.SetApiKey "new")
  = Scheduler.mkDashboard true "new" (Some (2%nat, "new")) 3
      [ Scheduler.FetchCryptoData "old"; Scheduler.SetInterval 1;
        Scheduler.ClearInterval 1; Scheduler.FetchCryptoData "new";
        Scheduler.SetInterval 2 ].
Proof.
  destruct (proj1 (key_change_restarts_the_refresh (Scheduler.mount "old") "new"
                     (Scheduler.reachable_mount "old") eq_refl))
    as (intervalId & Hi & Hs).
  - discriminate.
  - injection Hi as <-. exact Hs.
Defined.



(* ================================================================== *)
(** * Bodies without the expected structure *)
(* ================================================================== *)

Section GenericFailures.

Variable E : Engine.

Lemma get_member members key :
  get E (Some (JObj members)) (Named key) = Normal (member key members).
Proof. reflexivity. Qed.

Lemma get_first item items :
  get E (Some (JArr (item :: items))) (Index 0) = Normal (Some item).
Proof. reflexivity. Qed.

Lemma get_length items :
  get E (Some (JArr items)) (Named "length")
  = Normal (Some (JNum (inject_Z (Z.of_nat (List.length items))))).
Proof. reflexivity. Qed.

Lemma structure_without_content members candidate more content :
  member "candidates" members = Some (JArr (candidate :: more)) ->
  get E (Some candidate) (Named "content") = Normal content ->
  truthy_value content = false ->
  expected_structure E (JObj members) = Normal false.
Proof.
  intros Hcand Hcontent Hfalsy. unfold expected_structure, get_path.
  cbn [fold_left cbind].
  rewrite !get_member, Hcand. cbn [cbind truthy_value negb].
  rewrite get_length. cbn [cbind List.length].
  rewrite positive_length_gt_zero. cbn [cbind negb].
  rewrite get_first. cbn [cbind]. rewrite Hcontent. cbn [cbind].
  now rewrite Hfalsy.
Qed.

Lemma structure_without_parts members candidate more content parts :
  member "candidates" members = Some (JArr (candidate :: more)) ->
  get E (Some candidate) (Named "content") = Normal content ->
  truthy_value content = true ->
  get E content (Named "parts") = Normal parts ->
  truthy_value parts = false \/ parts = Some (JArr []) ->
  expected_structure E (JObj members) = Normal false.
Proof.
  intros Hcand Hcontent Htruthy Hparts Hnone. unfold expected_structure, get_path.
  cbn [fold_left cbind].
  rewrite !get_member, Hcand. cbn [cbind truthy_value negb].
  rewrite get_length. cbn [cbind List.length].
  rewrite positive_length_gt_zero. cbn [cbind negb].
  rewrite get_first. cbn [cbind]. rewrite Hcontent. cbn [cbind].
  rewrite Htruthy. cbn [negb]. rewrite Hparts. cbn [cbind].
  destruct Hnone as [Hfalsy | ->]; [now rewrite Hfalsy | reflexivity].
Qed.

End GenericFailures.

(** With an insight key present the answer counts only through its parsed
    body: two answers with the same body end alike, whatever their status.
    The request ends with the generic message "Could not generate insight.
    Please try again." and no insight for every body whose [candidates]
    reads as a falsy value (every object without that member, such as an
    error object, and every boolean, number, string and list), whose
    [candidates] is the empty list, whose first candidate is not [null] and
    has no truthy [content], or whose content has no truthy [parts] or an
    empty list of parts. *)
Theorem remote_insight_generic_failures :
  forall (E : Engine) (random : Q) (geminiApiKey cryptoName : string)
         (st : Retrieval.Store),
    truthy geminiApiKey = true ->
    let generic net :=
      getCryptoInsight E net random geminiApiKey cryptoName st =
        (Normal tt,
         failed_insight geminiApiKey cryptoName
           "Could not generate insight. Please try again." st) in
    let answered net result :=
      exists response,
        net (insight_request geminiApiKey cryptoName) = Resolved response /\
        json_body response = Normal result in
    (forall net1 net2 response1 response2,
        net1 (insight_request geminiApiKey cryptoName) = Resolved response1 ->
        net2 (insight_request geminiApiKey cryptoName) = Resolved response2 ->
        json_body response1 = json_body response2 ->
        getCryptoInsight E net1 random geminiApiKey cryptoName st =
          getCryptoInsight E net2 random geminiApiKey cryptoName st) /\
    (forall net result candidates,
        answered net result ->
        get E (Some result) (Named "candidates") = Normal candidates ->
        truthy_value candidates = false ->
        generic net) /\
    (forall net members,
        answered net (JObj members) ->
        member "candidates" members = None \/
        member "candidates" members = Some (JArr []) ->
        generic net) /\
    (forall net members candidate more content,
        answered net (JObj members) ->
        member "candidates" members = Some (JArr (candidate :: more)) ->
        get E (Some candidate) (Named "content") = Normal content ->
        truthy_value content = false ->
        generic net) /\
    (forall net members candidate more content parts,
        answered net (JObj members) ->
        member "candidates" members = Some (JArr (candidate :: more)) ->
        get E (Some candidate) (Named "content") = Normal content ->
        truthy_value content = true ->
        get E content (Named "parts") = Normal parts ->
        truthy_value parts = false \/ parts = Some (JArr []) ->
        generic net).
Proof.
  intros E random geminiApiKey cryptoName st Hkey generic answered.
  subst generic answered. cbv beta.
  repeat apply conj.
  - intros net1 net2 r1 r2 H1 H2 Hbody.
    rewrite (remote_insight_by_body E random _ _ st Hkey net1 r1 H1).
    rewrite (remote_insight_by_body E random _ _ st Hkey net2 r2 H2).
    now rewrite Hbody.
  - intros net result candidates (response & Hnet & Hbody) Hget Hfalsy.
    apply (remote_insight_generic E random _ _ st Hkey net response result Hnet Hbody).
    now apply (falsy_candidates E result candidates).
  - intros net members (response & Hnet & Hbody) [Hnone | Hempty];
      apply (remote_insight_generic E random _ _ st Hkey net response _ Hnet Hbody).
    + apply (falsy_candidates E (JObj members) None); [|reflexivity].
      cbn [get key_text]. now rewrite Hnone.
    + now apply empty_candidates.
  - intros net members candidate more content (response & Hnet & Hbody) Hc Hcontent Hf.
    apply (remote_insight_generic E random _ _ st Hkey net response _ Hnet Hbody).
    now apply (structure_without_content E members candidate more content).
  - intros net members candidate more content parts (response & Hnet & Hbody)
           Hc Hcontent Ht Hparts Hnone.
    apply (remote_insight_generic E random _ _ st Hkey net response _ Hnet Hbody).
    now apply (structure_without_parts E members candidate more content parts).
Qed.

Lemma remote_insight_generic_failures_witness :
  getCryptoInsight sample_engine (answering key_rejected) (1#2) "k" "Bitcoin"
    Retrieval.initial
  = (Normal tt,
     failed_insight "k" "Bitcoin" "Could not generate insight. Please try again."
       Retrieval.initial)
  /\ getCryptoInsight sample_engine
       (answering (mkResponse 200 "OK"
                     (Normal (JObj [("candidates",
                                     JArr [JObj [("finishReason", JStr "SAFETY")]])]))))
       (1#2) "k" "Bitcoin" Retrieval.initial
     = (Normal tt,
        failed_insight "k" "Bitcoin" "Could not generate insight. Please try again."
          Retrieval.initial).
Proof.
  split.
  - refine (proj1 (proj2 (proj2 (remote_insight_generic_failures sample_engine (1#2)
                                   "k" "Bitcoin" Retrieval.initial eq_refl)))
              (answering key_rejected)
              [("error",
                JObj [("code", JNum (inject_Z 400));
                      ("message", JStr "API key not valid.");
                      ("status", JStr "INVALID_ARGUMENT")])] _ _).
    + exists key_rejected. split; reflexivity.
    + left. reflexivity.
  - refine (proj1 (proj2 (proj2 (proj2 (remote_insight_generic_failures sample_engine
                                          (1#2) "k" "Bitcoin" Retrieval.initial eq_refl))))
              (answering (mkResponse 200 "OK"
                            (Normal (JObj [("candidates",
                                            JArr [JObj [("finishReason", JStr "SAFETY")]])]))))
              [("candidates", JArr [JObj [("finishReason", JStr "SAFETY")]])]
              (JObj [("finishReason", JStr "SAFETY")]) [] None _ _ _ _).
    + eexists. split; reflexivity.
    + reflexivity.
    + reflexivity.
    + reflexivity.
Defined.

(* ================================================================== *)
(** * Calls that overlap *)
(* ================================================================== *)

Section OverlapFacts.

Variable E : Engine.

Ltac unfold_calls :=
  unfold run_segment, fetchCryptoData_begins, fetchCryptoData_settles,
    getCryptoInsight_begins, getCryptoInsight_settles, send, received,
    fetchCryptoData, getCryptoInsight, Retrieval.bind,
    Retrieval.try_catch_finally, Retrieval.fetch, Retrieval.lift,
    Retrieval.throw, Retrieval.ret, Retrieval.setLoading, Retrieval.setError,
    Retrieval.setCryptos, Retrieval.setIsInsightLoading,
    Retrieval.setInsightError, Retrieval.setLlmInsight;
  cbn [Retrieval.cryptos Retrieval.loading Retrieval.error Retrieval.llmInsight
       Retrieval.isInsightLoading Retrieval.insightError Retrieval.sent snd].

(** A call on its own is its two segments back to back. *)
Lemma fetchCryptoData_is_its_segments net apiKey st :
  fetchCryptoData E net apiKey st =
  fetchCryptoData_settles E (net (market_request apiKey))
    (snd (fetchCryptoData_begins apiKey st)).
Proof.
  unfold_calls. fold (market_request apiKey).
  destruct (net (market_request apiKey)); reflexivity.
Qed.

Lemma getCryptoInsight_is_its_segments net random geminiApiKey cryptoName st :
  getCryptoInsight E net random geminiApiKey cryptoName st =
  if truthy geminiApiKey
  then getCryptoInsight_settles E cryptoName
         (net (insight_request geminiApiKey cryptoName))
         (snd (getCryptoInsight_begins random geminiApiKey cryptoName st))
  else getCryptoInsight_begins random geminiApiKey cryptoName st.
Proof.
  unfold_calls. destruct (truthy geminiApiKey); cbn [negb snd]; [|reflexivity].
  destruct (net (insight_request geminiApiKey cryptoName)); reflexivity.
Qed.

(** What the segment that settles a fetch writes. *)
Lemma fetch_settles_writes answer st :
  (exists response data,
      answer = Resolved response /\ ok response = true /\
      json_body response = Normal data /\
      run_segment E st (FetchSettles answer) =
        Retrieval.mkStore data false (Retrieval.error st)
          (Retrieval.llmInsight st) (Retrieval.isInsightLoading st)
          (Retrieval.insightError st) (Retrieval.sent st)) \/
  (exists message,
      run_segment E st (FetchSettles answer) =
        Retrieval.mkStore (Retrieval.cryptos st) false (Some (load_failure message))
          (Retrieval.llmInsight st) (Retrieval.isInsightLoading st)
          (Retrieval.insightError st) (Retrieval.sent st)).
Proof.
  unfold_calls. destruct answer as [m|response].
  - right. exists m. reflexivity.
  - destruct (ok response) eqn:Hok; cbn [negb].
    + destruct (json_body response) as [data|m] eqn:Hbody.
      * left. exists response, data. auto.
      * right. exists m. reflexivity.
    + right.
      destruct (ccatch (json_body response) _) as [errorData|m].
      * destruct (cbind (error_detail E errorData) (to_string E)) as [detail|m].
        -- exists (http_error_message response detail). reflexivity.
        -- exists m. reflexivity.
      * exists m. reflexivity.
Qed.

(** What the segment that settles an insight request writes. *)
Lemma insight_settles_writes cryptoName answer st :
  (exists text,
      run_segment E st (InsightSettles cryptoName answer) =
        Retrieval.mkStore (Retrieval.cryptos st) (Retrieval.loading st)
          (Retrieval.error st) (Some (Insight.mk cryptoName text)) false
          (Retrieval.insightError st) (Retrieval.sent st)) \/
  (exists message,
      truthy message = true /\
      run_segment E st (InsightSettles cryptoName answer) =
        Retrieval.mkStore (Retrieval.cryptos st) (Retrieval.loading st)
          (Retrieval.error st) (Retrieval.llmInsight st) false
          (Some message) (Retrieval.sent st)).
Proof.
  unfold_calls. destruct answer as [m|response].
  - right. exists ("Failed to get insight: " ++ m ++ "."). auto.
  - destruct (json_body response) as [result|m].
    + destruct (expected_structure E result) as [[|]|m].
      * destruct (get_path E (Some result) _) as [text|m].
        -- left. exists text. reflexivity.
        -- right. exists ("Failed to get insight: " ++ m ++ "."). auto.
      * right. exists generic_insight_failure. auto.
      * right. exists ("Failed to get insight: " ++ m ++ "."). auto.
    + right. exists ("Failed to get insight: " ++ m ++ "."). auto.
Qed.

Lemma insight_begins_writes random geminiApiKey cryptoName st :
  run_segment E st (InsightBegins random geminiApiKey cryptoName) =
    if truthy geminiApiKey
    then Retrieval.mkStore (Retrieval.cryptos st) (Retrieval.loading st)
           (Retrieval.error st) None true None
           (Retrieval.sent st ++ [insight_request geminiApiKey cryptoName])%list
    else Retrieval.mkStore (Retrieval.cryptos st) (Retrieval.loading st)
           (Retrieval.error st)
           (Some (Insight.mk cryptoName
                    (option_map JStr
                       (at_index (fallbackInsights cryptoName)
                          (Qfloor (random * inject_Z 4))))))
           false None (Retrieval.sent st).
Proof. unfold_calls. destruct (truthy geminiApiKey); reflexivity. Qed.

Lemma fetch_begins_writes apiKey st :
  run_segment E st (FetchBegins apiKey) =
    Retrieval.mkStore (Retrieval.cryptos st) true None
      (Retrieval.llmInsight st) (Retrieval.isInsightLoading st)
      (Retrieval.insightError st)
      (Retrieval.sent st ++ [market_request apiKey])%list.
Proof. reflexivity. Qed.

Lemma segment_sends st segment :
  Retrieval.sent (run_segment E st segment)
  = (Retrieval.sent st ++ requests_of segment)%list.
Proof.
  destruct segment as [k|answer|r k n|n answer].
  - reflexivity.
  - destruct (fetch_settles_writes answer st) as [(? & ? & _ & _ & _ & ->)|(? & ->)];
      cbn; now rewrite app_nil_r.
  - rewrite insight_begins_writes. cbn [requests_of].
    destruct (truthy k); cbn; [reflexivity | now rewrite app_nil_r].
  - destruct (insight_settles_writes n answer st) as [(? & ->)|(? & _ & ->)];
      cbn; now rewrite app_nil_r.
Qed.

Ltac split_cases :=
  repeat match goal with
         | |- context [match ?x with _ => _ end] =>
             lazymatch x with
             | context [match _ with _ => _ end] => fail
             | _ => destruct x
             end
         end.

(** A segment of a fetch writes the market hooks from the market hooks
    alone and leaves the insight hooks; a segment of an insight call does
    the converse. *)
Lemma fetch_segment_hooks st st2 segment :
  is_fetch segment = true ->
  market_hooks st = market_hooks st2 ->
  market_hooks (run_segment E st segment) = market_hooks (run_segment E st2 segment) /\
  insight_hooks (run_segment E st segment) = insight_hooks st.
Proof.
  intros Hf H.
  destruct st as [c l e i il ie s], st2 as [c2 l2 e2 i2 il2 ie2 s2].
  unfold market_hooks in H. cbn in H. injection H as -> -> ->.
  destruct segment as [k|answer|r k n|n answer]; try discriminate;
    unfold market_hooks, insight_hooks; unfold_calls;
    split_cases; cbn; split; reflexivity.
Qed.

Lemma insight_segment_hooks st st2 segment :
  is_fetch segment = false ->
  insight_hooks st = insight_hooks st2 ->
  insight_hooks (run_segment E st segment) = insight_hooks (run_segment E st2 segment) /\
  market_hooks (run_segment E st segment) = market_hooks st.
Proof.
  intros Hf H.
  destruct st as [c l e i il ie s], st2 as [c2 l2 e2 i2 il2 ie2 s2].
  unfold insight_hooks in H. cbn in H. injection H as -> -> ->.
  destruct segment as [k|answer|r k n|n answer]; try discriminate;
    unfold market_hooks, insight_hooks; unfold_calls;
    split_cases; cbn; split; reflexivity.
Qed.

Lemma market_of_schedule segments : forall st st2,
  market_hooks st = market_hooks st2 ->
  market_hooks (run_segments E st segments)
  = market_hooks (run_segments E st2 (filter is_fetch segments)).
Proof.
  induction segments as [|segment segments IH]; intros st st2 H; [exact H|].
  cbn [run_segments fold_left filter].
  destruct (is_fetch segment) eqn:Hf.
  - cbn [fold_left]. apply IH. now apply fetch_segment_hooks.
  - apply IH. rewrite <- H.
    now apply (insight_segment_hooks st st segment Hf eq_refl).
Qed.

Lemma insight_of_schedule segments : forall st st2,
  insight_hooks st = insight_hooks st2 ->
  insight_hooks (run_segments E st segments)
  = insight_hooks
      (run_segments E st2 (filter (fun segment => negb (is_fetch segment)) segments)).
Proof.
  induction segments as [|segment segments IH]; intros st st2 H; [exact H|].
  cbn [run_segments fold_left filter].
  destruct (is_fetch segment) eqn:Hf; cbn [negb].
  - apply IH. rewrite <- H.
    now apply (fetch_segment_hooks st st segment Hf eq_refl).
  - cbn [fold_left]. apply IH. now apply insight_segment_hooks.
Qed.

Lemma sent_of_schedule segments : forall st,
  Retrieval.sent (run_segments E st segments)
  = (Retrieval.sent st ++ flat_map requests_of segments)%list.
Proof.
  induction segments as [|segment segments IH]; intros st.
  - cbn. now rewrite app_nil_r.
  - cbn [run_segments fold_left flat_map].
    fold (run_segments E (run_segment E st segment) segments).
    now rewrite IH, segment_sends, app_assoc.
Qed.

Lemma structure_with_text members candidate content part more_candidates more_parts :
  member "candidates" members = Some (JArr (JObj candidate :: more_candidates)) ->
  member "content" candidate = Some (JObj content) ->
  member "parts" content = Some (JArr (JObj part :: more_parts)) ->
  expected_structure E (JObj members) = Normal true /\
  get_path E (Some (JObj members))
    [Named "candidates"; Index 0; Named "content"; Named "parts"; Index 0; Named "text"]
  = Normal (member "text" part).
Proof.
  intros Hcand Hcontent Hparts. unfold expected_structure, get_path.
  cbn [fold_left cbind].
  rewrite !get_member, Hcand. cbn [cbind truthy_value negb].
  rewrite !get_length. cbn [cbind List.length].
  rewrite positive_length_gt_zero. cbn [cbind negb].
  rewrite !get_first. cbn [cbind].
  rewrite !get_member, Hcontent. cbn [cbind truthy_value negb].
  rewrite !get_member, Hparts. cbn [cbind truthy_value negb].
  rewrite !get_length, !get_first. cbn [cbind List.length].
  rewrite positive_length_gt_zero, get_member. split; reflexivity.
Qed.

Lemma insight_settles_with_text cryptoName response st
      members candidate content part more_candidates more_parts :
  json_body response = Normal (JObj members) ->
  member "candidates" members = Some (JArr (JObj candidate :: more_candidates)) ->
  member "content" candidate = Some (JObj content) ->
  member "parts" content = Some (JArr (JObj part :: more_parts)) ->
  run_segment E st (InsightSettles cryptoName (Resolved response)) =
    Retrieval.mkStore (Retrieval.cryptos st) (Retrieval.loading st)
      (Retrieval.error st) (Some (Insight.mk cryptoName (member "text" part))) false
      (Retrieval.insightError st) (Retrieval.sent st).
Proof.
  intros Hbody Hcand Hcontent Hparts.
  destruct (structure_with_text members candidate content part more_candidates
              more_parts Hcand Hcontent Hparts) as [Hexp Htext].
  unfold_calls. rewrite Hbody, Hexp, Htext. reflexivity.
Qed.

End OverlapFacts.

Example stale_error_over_fresh_list :
  run_segments sample_engine Retrieval.initial
    [ FetchBegins "a"; FetchBegins "b"; FetchSettles (Rejected "Failed to fetch");
      FetchSettles (Resolved (mkResponse 200 "OK" (Normal (JArr [JObj [("id", JStr "bitcoin")]])))) ]
  = Retrieval.mkStore (JArr [JObj [("id", JStr "bitcoin")]]) false
      (Some "Failed to load cryptocurrency data: Failed to fetch. Please check your API key or try again later.")
      None false None [market_request "a"; market_request "b"].
Proof. reflexivity. Qed.

(** Loads and insight requests that overlap do not interfere: after any
    schedule of segments, the hooks of the market list are what the
    segments of the fetches alone leave, the hooks of the insight are what
    the segments of the insight requests alone leave, and the requests
    sent are one for each fetch that began and one for each insight
    request that began with a key, in the order in which they began. *)
Theorem calls_of_the_two_kinds_do_not_interfere :
  forall (E : Engine) (st : Retrieval.Store) (segments : list Segment),
    market_hooks (run_segments E st segments)
      = market_hooks (run_segments E st (filter is_fetch segments)) /\
    insight_hooks (run_segments E st segments)
      = insight_hooks
          (run_segments E st
             (filter (fun segment => negb (is_fetch segment)) segments)) /\
    Retrieval.sent (run_segments E st segments)
      = (Retrieval.sent st ++ flat_map requests_of segments)%list.
Proof.
  intros E st segments. split; [|split].
  - now apply market_of_schedule.
  - now apply insight_of_schedule.
  - apply sent_of_schedule.
Qed.

(** A load writes the error only when it begins (it clears it) and when it
    fails.  A load that succeeds - a success status and a body that parses
    to [data] - replaces the asset list by [data] wholesale, turns
    [loading] off and leaves the error as it finds it.  So a load on its
    own, which is what [fetchCryptoData] is, ends with the list replaced
    and no error; but when a second load begins after it and is rejected
    before it settles, it ends with the fresh list and the error of the
    other load. *)
Theorem a_successful_load_leaves_the_error_as_it_finds_it :
  forall (E : Engine) (st : Retrieval.Store) (response : Response) (data : json),
    ok response = true ->
    json_body response = Normal data ->
    run_segment E st (FetchSettles (Resolved response))
      = Retrieval.mkStore data false (Retrieval.error st)
          (Retrieval.llmInsight st) (Retrieval.isInsightLoading st)
          (Retrieval.insightError st) (Retrieval.sent st) /\
    (forall (net : Network) (apiKey : string),
        net (market_request apiKey) = Resolved response ->
        fetchCryptoData E net apiKey st = (Normal tt, loaded apiKey data st) /\
        run_segments E st [FetchBegins apiKey; FetchSettles (Resolved response)]
          = loaded apiKey data st) /\
    (forall (apiKey other message : string),
        run_segments E st
          [FetchBegins apiKey; FetchBegins other; FetchSettles (Rejected message);
           FetchSettles (Resolved response)]
          = Retrieval.mkStore data false (Some (load_failure message))
              (Retrieval.llmInsight st) (Retrieval.isInsightLoading st)
              (Retrieval.insightError st)
              (Retrieval.sent st ++ [market_request apiKey; market_request other])%list).
Proof.
  intros E st response data Hok Hbody.
  assert (forall st0,
             run_segment E st0 (FetchSettles (Resolved response))
             = Retrieval.mkStore data false (Retrieval.error st0)
                 (Retrieval.llmInsight st0) (Retrieval.isInsightLoading st0)
                 (Retrieval.insightError st0) (Retrieval.sent st0)) as Hsettle.
  { intros st0. unfold run_segment, fetchCryptoData_settles, received,
      Retrieval.bind, Retrieval.try_catch_finally, Retrieval.lift,
      Retrieval.throw, Retrieval.ret, Retrieval.setLoading, Retrieval.setError,
      Retrieval.setCryptos.
    cbn [Retrieval.cryptos Retrieval.loading Retrieval.error Retrieval.llmInsight
         Retrieval.isInsightLoading Retrieval.insightError Retrieval.sent snd].
    rewrite Hok, Hbody. reflexivity. }
  split; [apply Hsettle|]. split.
  - intros net apiKey Hnet.
    assert (run_segments E st [FetchBegins apiKey; FetchSettles (Resolved response)]
            = loaded apiKey data st) as Hrun.
    { cbn [run_segments fold_left]. rewrite Hsettle. reflexivity. }
    split; [|exact Hrun].
    rewrite fetchCryptoData_is_its_segments, Hnet.
    change (snd (fetchCryptoData_begins apiKey st))
      with (run_segment E st (FetchBegins apiKey)).
    rewrite <- Hrun. cbn [run_segments fold_left].
    unfold run_segment at 2.
    destruct (fetchCryptoData_settles E (Resolved response)
                (run_segment E st (FetchBegins apiKey))) as [[u|m] st'] eqn:Hs.
    + destruct u. reflexivity.
    + exfalso. revert Hs.
      unfold fetchCryptoData_settles, received, Retrieval.bind,
        Retrieval.try_catch_finally, Retrieval.lift, Retrieval.throw,
        Retrieval.ret, Retrieval.setLoading, Retrieval.setError, Retrieval.setCryptos.
      rewrite Hok, Hbody. cbn. discriminate.
  - intros apiKey other message.
    cbn [run_segments fold_left]. rewrite Hsettle.
    cbn. now rewrite <- app_assoc.
Qed.

Lemma a_successful_load_leaves_the_error_as_it_finds_it_witness :
  run_segments sample_engine Retrieval.initial
    [ FetchBegins "a"; FetchBegins "b"; FetchSettles (Rejected "Failed to fetch");
      FetchSettles (Resolved (mkResponse 200 "OK" (Normal (JArr [])))) ]
  = Retrieval.mkStore (JArr []) false
      (Some "Failed to load cryptocurrency data: Failed to fetch. Please check your API key or try again later.")
      None false None [market_request "a"; market_request "b"].
Proof.
  apply (proj2 (proj2 (a_successful_load_leaves_the_error_as_it_finds_it sample_engine
                         Retrieval.initial (mkResponse 200 "OK" (Normal (JArr [])))
                         (JArr []) eq_refl eq_refl))
           "a" "b" "Failed to fetch").
Defined.

(** An insight request on its own ends with either the modal or the error
    notice, never both; but an insight is cleared only when a request
    begins, and an error only then too: when a second request begins
    after the first, is rejected, and the first then settles with a text,
    the modal and the notice are both shown. *)
Theorem overlapping_insight_requests_show_modal_and_notice :
  forall (E : Engine) (st : Retrieval.Store) (random : Q)
         (geminiApiKey cryptoName : string),
    truthy geminiApiKey = true ->
    (forall (net : Network),
        let st' := snd (getCryptoInsight E net random geminiApiKey cryptoName st) in
        st' = run_segments E st
                [InsightBegins random geminiApiKey cryptoName;
                 InsightSettles cryptoName (net (insight_request geminiApiKey cryptoName))] /\
        ((insight_modal st' = true /\ insight_notice st' = false) \/
         (insight_modal st' = false /\ insight_notice st' = true))) /\
    (forall (response : Response) (other : string) (random' : Q) (message : string)
            (members candidate content part : list (string * json))
            (more_candidates more_parts : list json),
        json_body response = Normal (JObj members) ->
        member "candidates" members = Some (JArr (JObj candidate :: more_candidates)) ->
        member "content" candidate = Some (JObj content) ->
        member "parts" content = Some (JArr (JObj part :: more_parts)) ->
        let st' :=
          run_segments E st
            [InsightBegins random geminiApiKey cryptoName;
             InsightBegins random' geminiApiKey other;
             InsightSettles other (Rejected message);
             InsightSettles cryptoName (Resolved response)] in
        Retrieval.llmInsight st' = Some (Insight.mk cryptoName (member "text" part)) /\
        Retrieval.insightError st'
          = Some ("Failed to get insight: " ++ message ++ ".") /\
        insight_modal st' = true /\ insight_notice st' = true).
Proof.
  intros E st random geminiApiKey cryptoName Hkey. split.
  - intros net st'. subst st'.
    assert (snd (getCryptoInsight E net random geminiApiKey cryptoName st)
            = run_segments E st
                [InsightBegins random geminiApiKey cryptoName;
                 InsightSettles cryptoName
                   (net (insight_request geminiApiKey cryptoName))]) as Hrun.
    { rewrite getCryptoInsight_is_its_segments, Hkey. reflexivity. }
    split; [exact Hrun|]. rewrite Hrun. cbn [run_segments fold_left].
    rewrite insight_begins_writes, Hkey.
    match goal with
    | |- context [run_segment E ?s0 (InsightSettles ?n ?a)] =>
        destruct (insight_settles_writes E n a s0) as [(text & ->)|(m & Hm & ->)]
    end.
    + left. split; reflexivity.
    + right. split; [reflexivity|].
      unfold insight_notice. cbn. exact Hm.
  - intros response other random' message members candidate content part
           more_candidates more_parts Hbody Hcand Hcontent Hparts st'. subst st'.
    cbn [run_segments fold_left].
    rewrite (insight_settles_with_text E cryptoName response _ members candidate content
               part more_candidates more_parts Hbody Hcand Hcontent Hparts).
    rewrite !insight_begins_writes, Hkey.
    repeat split.
Qed.

Lemma overlapping_insight_requests_show_modal_and_notice_witness :
  insight_modal
    (run_segments sample_engine Retrieval.initial
       [InsightBegins (1#2) "k" "Bitcoin"; InsightBegins (1#2) "k" "Ethereum";
        InsightSettles "Ethereum" (Rejected "Failed to fetch");
        InsightSettles "Bitcoin" (Resolved (generated "Bitcoin is up."))]) = true
  /\ insight_notice
    (run_segments sample_engine Retrieval.initial
       [InsightBegins (1#2) "k" "Bitcoin"; InsightBegins (1#2) "k" "Ethereum";
        InsightSettles "Ethereum" (Rejected "Failed to fetch");
        InsightSettles "Bitcoin" (Resolved (generated "Bitcoin is up."))]) = true.
Proof.
  destruct (proj2 (overlapping_insight_requests_show_modal_and_notice sample_engine
                     Retrieval.initial (1#2) "k" "Bitcoin" eq_refl)
              (generated "Bitcoin is up.") "Ethereum" (1#2) "Failed to fetch"
              [("candidates",
                JArr [JObj [("content",
                             JObj [("parts", JArr [JObj [("text", JStr "Bitcoin is up.")]]);
                                   ("role", JStr "model")])]])]
              [("content",
                JObj [("parts", JArr [JObj [("text", JStr "Bitcoin is up.")]]);
                      ("role", JStr "model")])]
              [("parts", JArr [JObj [("text", JStr "Bitcoin is up.")]]);
               ("role", JStr "model")]
              [("text", JStr "Bitcoin is up.")] [] []
              eq_refl eq_refl eq_refl eq_refl)
    as (_ & _ & Hmodal & Hnotice).
  split; [exact Hmodal | exact Hnotice].
Defined.
